(** * The e2e test environment: setup, teardown and the trigger server

    A shallow embedding of [pkg/e2e] ([randomString], [Setup]) and of the two
    HTTP handlers of [cmd/e2e-runner] ([defaultHandler], [reviseHandler]),
    with the properties of their specification stated and proved against it.

    Layout: the standard-library pieces the code calls (SHA-256, [%x]), the
    collaborators the code only consumes (errors, the database, the clock),
    the code of [Setup] as a two-thread transition system, the handlers,
    and then the theorems. *)

From Stdlib Require Import ZArith List Bool Lia.
From Stdlib.Strings Require Import String Ascii Byte.
From stdpp Require Import gmap strings list fin_maps.

(** ** SHA-256 (Go's [crypto/sha256], FIPS 180-4) on 32-bit words held in [Z] *)

Module Sha256.

Local Open Scope Z_scope.

Definition u32 (x : Z) : Z := x mod 2 ^ 32.

(** [bits.RotateLeft32(x, -n)] *)
Definition rotr (n x : Z) : Z :=
  Z.lor (Z.shiftr x n) (u32 (Z.shiftl x (32 - n))).

(** [^x] on a [uint32] *)
Definition not32 (x : Z) : Z := Z.lxor x 4294967295.

(** The round constants, [_K] of [sha256block.go], written in decimal. *)
Definition _K : list Z :=
  [
    1116352408; 1899447441; 3049323471; 3921009573;
   961987163; 1508970993; 2453635748; 2870763221;
  3624381080;  310598401;  607225278; 1426881987;
  1925078388; 2162078206; 2614888103; 3248222580;
  3835390401; 4022224774;  264347078;  604807628;
   770255983; 1249150122; 1555081692; 1996064986;
  2554220882; 2821834349; 2952996808; 3210313671;
  3336571891; 3584528711;  113926993;  338241895;
   666307205;  773529912; 1294757372; 1396182291;
  1695183700; 1986661051; 2177026350; 2456956037;
  2730485921; 2820302411; 3259730800; 3345764771;
  3516065817; 3600352804; 4094571909;  275423344;
   430227734;  506948616;  659060556;  883997877;
   958139571; 1322822218; 1537002063; 1747873779;
  1955562222; 2024104815; 2227730452; 2361852424;
  2428436474; 2756734187; 3204031479; 3329325298 ].

(** The eight chaining words [h0 .. h7]; also the working variables
    [a .. h] of one block. *)
Record digest := Digest {
  h0 : Z; h1 : Z; h2 : Z; h3 : Z; h4 : Z; h5 : Z; h6 : Z; h7 : Z
}.

Definition init : digest :=
  Digest 1779033703 3144134277 1013904242 2773480762
         1359893119 2600822924 528734635 1541459225.

Definition byteZ (b : byte) : Z := Z.of_N (Byte.to_N b).

Definition Zbyte (z : Z) : byte :=
  match Byte.of_N (Z.to_N (z mod 256)) with
  | Some b => b
  | None => x00
  end.

(** [w[i] = uint32(p[j])<<24 | uint32(p[j+1])<<16 | uint32(p[j+2])<<8 | uint32(p[j+3])] *)
Fixpoint be_words (p : list byte) : list Z :=
  match p with
  | b0 :: b1 :: b2 :: b3 :: rest =>
      Z.lor (Z.lor (Z.lor (Z.shiftl (byteZ b0) 24) (Z.shiftl (byteZ b1) 16))
                   (Z.shiftl (byteZ b2) 8)) (byteZ b3)
      :: be_words rest
  | _ => []
  end.

(** The message schedule, most recent word first: [rw] holds
    [w[i-1], w[i-2], ...]; each round appends
    [w[i] = t1 + w[i-7] + t2 + w[i-16]]. *)
Fixpoint schedule (rounds : nat) (rw : list Z) : list Z :=
  match rounds with
  | O => rw
  | S r =>
      let v1 := nth 1 rw 0 in
      let t1 := Z.lxor (Z.lxor (rotr 17 v1) (rotr 19 v1)) (Z.shiftr v1 10) in
      let v2 := nth 14 rw 0 in
      let t2 := Z.lxor (Z.lxor (rotr 7 v2) (rotr 18 v2)) (Z.shiftr v2 3) in
      schedule r (u32 (t1 + nth 6 rw 0 + t2 + nth 15 rw 0) :: rw)
  end.

Definition round (s : digest) (kw : Z * Z) : digest :=
  let '(Digest a b c d e f g h) := s in
  let t1 := u32 (h + Z.lxor (Z.lxor (rotr 6 e) (rotr 11 e)) (rotr 25 e)
                   + Z.lxor (Z.land e f) (Z.land (not32 e) g)
                   + fst kw + snd kw) in
  let t2 := u32 (Z.lxor (Z.lxor (rotr 2 a) (rotr 13 a)) (rotr 22 a)
                 + Z.lxor (Z.lxor (Z.land a b) (Z.land a c)) (Z.land b c)) in
  Digest (u32 (t1 + t2)) a b c (u32 (d + t1)) e f g.

(** One 64-byte chunk. *)
Definition block (dig : digest) (p : list byte) : digest :=
  let w := List.rev (schedule 48 (List.rev (be_words p))) in
  let s := fold_left round (combine _K w) dig in
  Digest (u32 (h0 dig + h0 s)) (u32 (h1 dig + h1 s)) (u32 (h2 dig + h2 s))
         (u32 (h3 dig + h3 s)) (u32 (h4 dig + h4 s)) (u32 (h5 dig + h5 s))
         (u32 (h6 dig + h6 s)) (u32 (h7 dig + h7 s)).

Fixpoint blocks (n : nat) (dig : digest) (p : list byte) : digest :=
  match n with
  | O => dig
  | S n' => blocks n' (block dig (firstn 64 p)) (skipn 64 p)
  end.

(** Big-endian bytes of a [width]-byte unsigned integer. *)
Fixpoint be_bytes (width : nat) (x : Z) : list byte :=
  match width with
  | O => []
  | S w' => Zbyte (Z.shiftr x (8 * Z.of_nat w')) :: be_bytes w' x
  end.

(** Padding: 0x80, zeros up to 56 mod 64, then the bit length on 8 bytes. *)
Definition pad (msg : list byte) : list byte :=
  let len := Z.of_nat (length msg) in
  let zeros := Z.to_nat ((55 - len) mod 64) in
  msg ++ x80 :: repeat x00 zeros ++ be_bytes 8 (8 * len).

(** [sha256.Sum256(data)]: the 32 bytes of the checksum. *)
Definition Sum256 (data : list byte) : list byte :=
  let p := pad data in
  let d := blocks (length p / 64)%nat init p in
  be_bytes 4 (h0 d) ++ be_bytes 4 (h1 d) ++ be_bytes 4 (h2 d) ++
  be_bytes 4 (h3 d) ++ be_bytes 4 (h4 d) ++ be_bytes 4 (h5 d) ++
  be_bytes 4 (h6 d) ++ be_bytes 4 (h7 d).

End Sha256.

(** ** [fmt.Sprintf("%x", bytes)]: two lowercase hexadecimal digits per byte *)

Module Fmt.

Definition ldigits : string := "0123456789abcdef".

Definition hexdigit (n : N) : ascii :=
  match String.get (N.to_nat n) ldigits with
  | Some c => c
  | None => "0"%char
  end.

Definition hex_byte (b : byte) : list ascii :=
  [ hexdigit (Byte.to_N b / 16)%N; hexdigit (Byte.to_N b mod 16)%N ].

Definition Sprintf_x (bs : list byte) : string :=
  string_of_list_ascii (flat_map hex_byte bs).

Definition is_lower_hex (c : ascii) : bool :=
  let n := nat_of_ascii c in
  ((48 <=? n)%nat && (n <=? 57)%nat) || ((97 <=? n)%nat && (n <=? 102)%nat).

End Fmt.

(** ** Collaborators: errors, the clock, the database

    [pkg/database] and [pkg/config] are consumed through their interfaces
    only; the definitions of this part give those interfaces a meaning. *)

(** Go [error] values. [ErrWrap c e] is [fmt.Errorf("c: %w", e)] and
    [ErrText c e] is [fmt.Errorf("c: %v", e)]; arguments of a format string
    other than the wrapped error are not rendered. *)
Inductive error :=
| ErrRecordNotFound
| ErrExternal (msg : string)
| ErrWrap (context : string) (cause : error)
| ErrText (context : string) (cause : error).

(** Modelled from the spec: [database.IsNotFound], the test behind
    [findRealmByName(name) -> Realm|NotFound]; it looks through [%w]. *)
Fixpoint IsNotFound (err : error) : bool :=
  match err with
  | ErrRecordNotFound => true
  | ErrWrap _ cause => IsNotFound cause
  | _ => false
  end.

(** [err.Error()] *)
Fixpoint Error (err : error) : string :=
  match err with
  | ErrRecordNotFound => "record not found"
  | ErrExternal msg => msg
  | ErrWrap c e => c +:+ ": " +:+ Error e
  | ErrText c e => c +:+ ": " +:+ Error e
  end.

(** [time.Time], as an instant on the UTC time line. *)
Definition Time := Z.

(** Modelled from the spec: the type of a credential, admin or device. *)
Inductive APIKeyType := APIKeyTypeDevice | APIKeyTypeAdmin.

Module Realm.
(** Modelled from the spec: a realm has a name, unique, and a region code. *)
Record t := Build {
  ID : nat;
  Name : string;
  RegionCode : string
}.
End Realm.

Module AuthorizedApp.
(** Modelled from the spec: an authorized app belongs to one realm and has
    a name, a key value, a type and an optional deletion time. *)
Record t := Build {
  RealmID : nat;
  Name : string;
  APIKey : string;
  KeyType : APIKeyType;
  DeletedAt : option Time
}.

Definition set_DeletedAt (d : option Time) (app : t) : t :=
  Build (RealmID app) (Name app) (APIKey app) (KeyType app) d.
End AuthorizedApp.

(** Modelled from the spec: the database of [pkg/database], as its
    interface describes it. Realms are unique by name, authorized apps are
    unique by API key value, rows are never removed (revocation is a soft
    delete). Every operation takes [fault], the failure of the store on
    that call if any. *)
Module database.

Record Database := Build {
  realms : gmap string Realm.t;
  apps : gmap string AuthorizedApp.t;
  connected : bool
}.

Definition set_realms (r : gmap string Realm.t) (db : Database) :=
  Build r (apps db) (connected db).
Definition set_apps (a : gmap string AuthorizedApp.t) (db : Database) :=
  Build (realms db) a (connected db).
Definition set_connected (c : bool) (db : Database) :=
  Build (realms db) (apps db) c.

(** Modelled from the spec: [open(ctx) -> error]. *)
Definition Open (fault : option error) (db : Database) : Database + error :=
  match fault with
  | Some err => inr err
  | None => inl (set_connected true db)
  end.

(** Modelled from the spec: [close() -> error]; [Setup] drops the result. *)
Definition Close (db : Database) : Database := set_connected false db.

(** Modelled from the spec: [NewRealmWithDefaults(name)], a realm of that
    name, not yet saved and hence without an ID. *)
Definition NewRealmWithDefaults (name : string) : Realm.t :=
  Realm.Build 0 name "".

(** Modelled from the spec: [findRealmByName(name) -> Realm|NotFound]. *)
Definition FindRealmByName (fault : option error) (db : Database)
    (name : string) : Realm.t + error :=
  match fault with
  | Some err => inr err
  | None =>
      match realms db !! name with
      | Some realm => inl realm
      | None => inr ErrRecordNotFound
      end
  end.

(** Modelled from the spec: the ID the database gives to the next realm,
    one more than every ID in use. *)
Definition next_realm_id (db : Database) : nat :=
  S (map_fold (λ _ r acc, Nat.max (Realm.ID r) acc) 0%nat (realms db)).

(** Modelled from the spec: [saveRealm(realm, actor) -> error]. An unsaved
    realm gets its ID; a second realm of the same name is refused. *)
Definition SaveRealm (fault : option error) (db : Database)
    (realm : Realm.t) : (Realm.t * Database) + error :=
  match fault with
  | Some err => inr err
  | None =>
      match Realm.ID realm, realms db !! Realm.Name realm with
      | O, Some _ => inr (ErrExternal "realm name is not unique")
      | O, None =>
          let saved := Realm.Build (next_realm_id db) (Realm.Name realm)
                                   (Realm.RegionCode realm) in
          inl (saved, set_realms (<[Realm.Name saved := saved]> (realms db)) db)
      | S _, _ =>
          inl (realm, set_realms (<[Realm.Name realm := realm]> (realms db)) db)
      end
  end.

(** Modelled from the spec:
    [createAuthorizedApp(realm, appSpec, actor) -> keyValue|error]. The app
    is stored in the realm under a newly generated key value [key], which
    is returned; a key value already in use is refused. *)
Definition CreateAuthorizedApp (fault : option error) (key : string)
    (realm : Realm.t) (db : Database) (app : AuthorizedApp.t)
    : (string * Database) + error :=
  match fault with
  | Some err => inr err
  | None =>
      match apps db !! key with
      | Some _ => inr (ErrExternal "api key is not unique")
      | None =>
          let row := AuthorizedApp.Build (Realm.ID realm) (AuthorizedApp.Name app)
                       key (AuthorizedApp.KeyType app) (AuthorizedApp.DeletedAt app) in
          inl (key, set_apps (<[key := row]> (apps db)) db)
      end
  end.

(** Modelled from the spec: [findAuthorizedAppByKey(key) -> App|error]; on
    an error there is no app. *)
Definition FindAuthorizedAppByAPIKey (fault : option error) (db : Database)
    (key : string) : AuthorizedApp.t + error :=
  match fault with
  | Some err => inr err
  | None =>
      match apps db !! key with
      | Some app => inl app
      | None => inr ErrRecordNotFound
      end
  end.

(** Modelled from the spec: [saveAuthorizedApp(app, actor) -> error]; the
    row of that key value is replaced. *)
Definition SaveAuthorizedApp (fault : option error) (db : Database)
    (app : AuthorizedApp.t) : Database + error :=
  match fault with
  | Some err => inr err
  | None => inl (set_apps (<[AuthorizedApp.APIKey app := app]> (apps db)) db)
  end.

End database.

(** ** [pkg/config]: the part of the runner configuration the code touches *)

Module config.

(** Modelled from the spec: the run configuration, a value carrying the two
    live credential values and the revise-workflow flag. *)
Record E2ETestConfig := BuildTest {
  VerificationAdminAPIKey : string;
  VerificationAPIServerKey : string;
  DoRevise : bool
}.

Definition set_DoRevise (b : bool) (c : E2ETestConfig) : E2ETestConfig :=
  BuildTest (VerificationAdminAPIKey c) (VerificationAPIServerKey c) b.
Definition set_VerificationAdminAPIKey (k : string) (c : E2ETestConfig) :=
  BuildTest k (VerificationAPIServerKey c) (DoRevise c).
Definition set_VerificationAPIServerKey (k : string) (c : E2ETestConfig) :=
  BuildTest (VerificationAdminAPIKey c) k (DoRevise c).

Record E2ERunnerConfig := BuildRunner {
  TestConfig : E2ETestConfig
}.

End config.

(** ** [pkg/e2e]: [randomString] and [Setup] *)

Module e2e.

Definition realmName : string := "e2e-test-realm".
Definition realmRegionCode : string := "e2e-test".
Definition adminKeyName : string := "e2e-admin-key.".
Definition deviceKeyName : string := "e2e-device-key.".

(** What the world outside the code decides during one call of [Setup]:
    which calls to a collaborator fail and with what, the bytes the
    entropy source delivers, the key values the database generates, and
    the clock readings of the two revocations. *)
Record Env := BuildEnv {
  load_fault : option error;
  open_fault : option error;
  find_realm_fault : option error;
  save_realm_fault : option error;
  rand_fault : option error;
  rand_stream : nat → byte;
  create_admin_fault : option error;
  admin_key_value : string;
  create_device_fault : option error;
  device_key_value : string;
  find_device_fault : option error;
  save_device_fault : option error;
  find_admin_fault : option error;
  save_admin_fault : option error;
  now_device : Time;
  now_admin : Time
}.

Inductive LogEntry :=
| LogError (msg : string) (err : error)
| LogInfo (msg : string).

(** The calls the background task makes, in the order it makes them. *)
Inductive Event :=
| EvOpen
| EvClose
| EvFindRealmByName (name : string)
| EvSaveRealm (name : string)
| EvRandRead (n : nat)
| EvCreateAuthorizedApp (name : string) (typ : APIKeyType)
| EvFindAuthorizedAppByAPIKey (key : string)
| EvSaveAuthorizedApp (app : AuthorizedApp.t)
| EvLog (entry : LogEntry)
| EvReady (msg : option error).

(** What the background task reads and writes: the database, the
    configuration object [cfg] points to, and the record of its calls. *)
Record Mem := BuildMem {
  db : database.Database;
  cfg : config.E2ERunnerConfig;
  trace : list Event
}.

Definition Task (A : Type) : Type := Mem → A * Mem.

Definition ret {A} (a : A) : Task A := λ m, (a, m).
Definition bind {A B} (c : Task A) (k : A → Task B) : Task B :=
  λ m, let '(a, m') := c m in k a m'.

Notation "'let*' x ':=' c 'in' k" := (bind c (λ x, k))
  (at level 10, x name, c at level 100, k at level 200).

Definition emit (e : Event) : Task unit :=
  λ m, (tt, BuildMem (db m) (cfg m) (trace m ++ [e])).

(** A database call that changes the database when it succeeds. *)
Definition update {A} (e : Event)
    (op : database.Database → (A * database.Database) + error) : Task (A + error) :=
  let* _ := emit e in
  λ m, match op (db m) with
       | inl (a, db') => (inl a, BuildMem db' (cfg m) (trace m))
       | inr err => (inr err, m)
       end.

(** A database call that only reads. *)
Definition query {A} (e : Event) (op : database.Database → A + error)
    : Task (A + error) :=
  let* _ := emit e in
  λ m, (op (db m), m).

Definition Errorf (msg : string) (err : error) : Task unit :=
  emit (EvLog (LogError msg err)).
Definition Info (msg : string) : Task unit := emit (EvLog (LogInfo msg)).

(** [rand.Read(b)] on a buffer of [n] bytes. *)
Definition rand_Read (env : Env) (n : nat) : list byte + error :=
  match rand_fault env with
  | Some err => inr err
  | None => inl (List.map (rand_stream env) (seq 0 n))
  end.

Definition randomString (env : Env) : string + error :=
  match rand_Read env 512 with
  | inr err => inr (ErrText "failed to generate random" err)
  | inl b => inl (Fmt.Sprintf_x (Sha256.Sum256 b))
  end.

(** The calls registered with [defer], named by what they run. *)
Inductive Deferred :=
| DeferClose
| DeferAdminCleanup (adminKey : string)
| DeferDeviceCleanup (deviceKey : string).

Inductive Panic :=
| NilPointerDereference
| CloseOfClosedChannel
| NilFuncCall.

(** The realm of the run: found, or created when the lookup says it is
    absent. [inr] carries the error the task reports. *)
Definition find_or_create_realm (env : Env) : Task (Realm.t + error) :=
  let* r := query (EvFindRealmByName realmName)
              (λ d, database.FindRealmByName (find_realm_fault env) d realmName) in
  match r with
  | inl realm => ret (inl realm)
  | inr err =>
      if negb (IsNotFound err) then
        ret (inr (ErrWrap "error when finding the realm" err))
      else
        let realm := database.NewRealmWithDefaults realmName in
        let realm := Realm.Build (Realm.ID realm) (Realm.Name realm) realmRegionCode in
        let* r := update (EvSaveRealm realmName)
                    (λ d, match database.SaveRealm (save_realm_fault env) d realm with
                          | inl (saved, d') => inl (saved, d')
                          | inr e => inr e
                          end) in
        match r with
        | inr err => ret (inr (ErrWrap "failed to create realm" err))
        | inl saved => ret (inl saved)
        end
  end.

(** The body of the goroutine up to the statement at which it blocks,
    which on every path is a send on [ready]: the result is the value
    it is about to send and the stack of deferred calls registered so
    far, innermost first. *)
Definition provision (env : Env) : Task (option error * list Deferred) :=
  match load_fault env with
  | Some err => ret (Some (ErrWrap "failed to load database config" err), [])
  | None =>
  let* r := update EvOpen
              (λ d, match database.Open (open_fault env) d with
                    | inl d' => inl (tt, d')
                    | inr e => inr e
                    end) in
  match r with
  | inr err => ret (Some (ErrWrap "failed to connect to database" err), [])
  | inl _ =>
  let defers := [DeferClose] in
  let* r := find_or_create_realm env in
  match r with
  | inr err => ret (Some err, defers)
  | inl realm =>
  let* _ := emit (EvRandRead 512) in
  match randomString env with
  | inr err =>
      ret (Some (ErrWrap "failed to create suffix string for API keys" err), defers)
  | inl suffix =>
  let* r := update (EvCreateAuthorizedApp (adminKeyName +:+ suffix) APIKeyTypeAdmin)
              (λ d, database.CreateAuthorizedApp (create_admin_fault env)
                      (admin_key_value env) realm d
                      (AuthorizedApp.Build 0 (adminKeyName +:+ suffix) ""
                                           APIKeyTypeAdmin None)) in
  match r with
  | inr err =>
      ret (Some (ErrWrap "error trying to create a new Admin API Key" err), defers)
  | inl adminKey =>
  let defers := DeferAdminCleanup adminKey :: defers in
  let* r := update (EvCreateAuthorizedApp (deviceKeyName +:+ suffix) APIKeyTypeDevice)
              (λ d, database.CreateAuthorizedApp (create_device_fault env)
                      (device_key_value env) realm d
                      (AuthorizedApp.Build 0 (deviceKeyName +:+ suffix) ""
                                           APIKeyTypeDevice None)) in
  match r with
  | inr err =>
      ret (Some (ErrWrap "error trying to create a new Device API Key" err), defers)
  | inl deviceKey =>
  let defers := DeferDeviceCleanup deviceKey :: defers in
  let* _ := (λ m, (tt, BuildMem (db m)
               (config.BuildRunner
                  (config.set_VerificationAPIServerKey deviceKey
                     (config.set_VerificationAdminAPIKey adminKey
                        (config.TestConfig (cfg m)))))
               (trace m))) in
  ret (None, defers)
  end end end end end end.

(** The deferred admin key cleanup. After a failed lookup it goes on with
    the [app] the lookup returned, which is nil. *)
Definition admin_cleanup (env : Env) (adminKey : string) : Task (option Panic) :=
  let* r := query (EvFindAuthorizedAppByAPIKey adminKey)
              (λ d, database.FindAuthorizedAppByAPIKey (find_admin_fault env) d adminKey) in
  let app := match r with inl a => Some a | inr _ => None end in
  let* _ := match r with
            | inr err => Errorf "admin API key cleanup failed" err
            | inl _ => ret tt
            end in
  let now := now_admin env in
  match app with
  | None => ret (Some NilPointerDereference)
  | Some app =>
      let app := AuthorizedApp.set_DeletedAt (Some now) app in
      let* r := update (EvSaveAuthorizedApp app)
                  (λ d, match database.SaveAuthorizedApp (save_admin_fault env) d app with
                        | inl d' => inl (tt, d')
                        | inr e => inr e
                        end) in
      let* _ := match r with
                | inr err => Errorf "admin API key disable failed" err
                | inl _ => ret tt
                end in
      let* _ := Info "successfully cleaned up e2e test admin key" in
      ret None
  end.

(** The deferred device key cleanup; it returns after a failed lookup. *)
Definition device_cleanup (env : Env) (deviceKey : string) : Task (option Panic) :=
  let* r := query (EvFindAuthorizedAppByAPIKey deviceKey)
              (λ d, database.FindAuthorizedAppByAPIKey (find_device_fault env) d deviceKey) in
  match r with
  | inr err =>
      let* _ := Errorf "device API key cleanup failed" err in
      ret None
  | inl app =>
      let now := now_device env in
      let app := AuthorizedApp.set_DeletedAt (Some now) app in
      let* r := update (EvSaveAuthorizedApp app)
                  (λ d, match database.SaveAuthorizedApp (save_device_fault env) d app with
                        | inl d' => inl (tt, d')
                        | inr e => inr e
                        end) in
      let* _ := match r with
                | inr err => Errorf "device API key disable failed" err
                | inl _ => ret tt
                end in
      let* _ := Info "successfully cleaned up e2e test device key" in
      ret None
  end.

Definition run_deferred (env : Env) (d : Deferred) : Task (option Panic) :=
  match d with
  | DeferClose =>
      let* _ := emit EvClose in
      λ m, (None, BuildMem (database.Close (db m)) (cfg m) (trace m))
  | DeferAdminCleanup adminKey => admin_cleanup env adminKey
  | DeferDeviceCleanup deviceKey => device_cleanup env deviceKey
  end.

(** *** [Setup] as two threads

    The caller of [Setup] and the goroutine it starts share the channels
    [ready] (unbuffered) and [done] (only ever closed), the context [ctx]
    and the memory [Mem]. A [Label] names the next move; [step] makes it
    when the program allows it. *)

(** The function value [Setup] returns on success: [func() { close(done) }]. *)
Inductive Closure := CloseDone.

Inductive CallerPC :=
| AtRecv                                   (* blocked in [<-ready] *)
| Received (err : option error)            (* at [if err != nil] *)
| Returned (teardown : option Closure) (err : option error).

Inductive TaskPC :=
| Spawned                                  (* [go func() { ... }()] *)
| AtSend (msg : option error)              (* blocked in [ready <- msg] *)
| AtSelect                                 (* blocked in [select] *)
| Unwinding                                (* returning: deferred calls run *)
| Exited.

Record State := BuildState {
  caller : CallerPC;
  task : TaskPC;
  defers : list Deferred;
  panicking : option Panic;
  done_closed : bool;
  ctx_done : bool;
  mem : Mem;
  crashed : option Panic
}.

Inductive Label :=
| GoProvision      (* the goroutine runs up to its send on [ready] *)
| Handshake        (* the send on [ready] meets the receive *)
| CallerReturn     (* the caller branches on what it received and returns *)
| InvokeTeardown   (* the function [Setup] returned is called *)
| CtxCancel        (* [ctx] is cancelled *)
| SelectWake       (* the [select] finds [done] closed or [ctx] done *)
| RunDeferred      (* the innermost pending deferred call runs *)
| TaskExit.        (* the goroutine ends; a pending panic ends the process *)

(** [close(ch)] on a channel whose closed flag is [closed]. *)
Definition close_chan (closed : bool) : bool + Panic :=
  if closed then inr CloseOfClosedChannel else inl true.

Definition set_caller (c : CallerPC) (s : State) : State :=
  BuildState c (task s) (defers s) (panicking s) (done_closed s) (ctx_done s)
             (mem s) (crashed s).
Definition set_task (t : TaskPC) (s : State) : State :=
  BuildState (caller s) t (defers s) (panicking s) (done_closed s) (ctx_done s)
             (mem s) (crashed s).
Definition set_done_closed (b : bool) (s : State) : State :=
  BuildState (caller s) (task s) (defers s) (panicking s) b (ctx_done s)
             (mem s) (crashed s).
Definition set_ctx_done (b : bool) (s : State) : State :=
  BuildState (caller s) (task s) (defers s) (panicking s) (done_closed s) b
             (mem s) (crashed s).
Definition set_crashed (p : option Panic) (s : State) : State :=
  BuildState (caller s) (task s) (defers s) (panicking s) (done_closed s)
             (ctx_done s) (mem s) p.

(** [close(done)] by whoever runs it. *)
Definition close_done (s : State) : State :=
  match close_chan (done_closed s) with
  | inl c => set_done_closed c s
  | inr p => set_crashed (Some p) s
  end.

Definition step (env : Env) (l : Label) (s : State) : option State :=
  match crashed s with
  | Some _ => None
  | None =>
      match l with
      | GoProvision =>
          match task s with
          | Spawned =>
              let '((msg, ds), m) := provision env (mem s) in
              Some (BuildState (caller s) (AtSend msg) ds (panicking s)
                               (done_closed s) (ctx_done s) m (crashed s))
          | _ => None
          end
      | Handshake =>
          match task s, caller s with
          | AtSend msg, AtRecv =>
              Some (BuildState (Received msg)
                      (match msg with Some _ => Unwinding | None => AtSelect end)
                      (defers s) (panicking s) (done_closed s) (ctx_done s)
                      (snd (emit (EvReady msg) (mem s))) (crashed s))
          | _, _ => None
          end
      | CallerReturn =>
          match caller s with
          | Received (Some err) =>
              Some (let s := close_done s in
                    match crashed s with
                    | Some _ => s
                    | None => set_caller (Returned None (Some err)) s
                    end)
          | Received None => Some (set_caller (Returned (Some CloseDone) None) s)
          | _ => None
          end
      | InvokeTeardown =>
          match caller s with
          | Returned (Some CloseDone) _ => Some (close_done s)
          | Returned None _ => Some (set_crashed (Some NilFuncCall) s)
          | _ => None
          end
      | CtxCancel => Some (set_ctx_done true s)
      | SelectWake =>
          match task s with
          | AtSelect =>
              if done_closed s || ctx_done s then Some (set_task Unwinding s) else None
          | _ => None
          end
      | RunDeferred =>
          match task s, defers s with
          | Unwinding, d :: ds =>
              let '(p, m) := run_deferred env d (mem s) in
              Some (BuildState (caller s) Unwinding ds
                      (match p with Some _ => p | None => panicking s end)
                      (done_closed s) (ctx_done s) m (crashed s))
          | _, _ => None
          end
      | TaskExit =>
          match task s, defers s with
          | Unwinding, [] =>
              Some (match panicking s with
                    | Some p => set_crashed (Some p) s
                    | None => set_task Exited s
                    end)
          | _, _ => None
          end
      end
  end.

(** A schedule is a sequence of moves; [run] makes them in order and gives
    up at the first one the program does not allow. *)
Fixpoint run (env : Env) (sched : list Label) (s : State) : option State :=
  match sched with
  | [] => Some s
  | l :: rest =>
      match step env l s with
      | Some s' => run env rest s'
      | None => None
      end
  end.

(** [Setup(ctx, cfg)] has just started its goroutine. *)
Definition Setup (db0 : database.Database) (cfg0 : config.E2ERunnerConfig) : State :=
  BuildState AtRecv Spawned [] None false false (BuildMem db0 cfg0 []) None.

(** The moves by which [Setup] returns when nothing else intervenes. *)
Definition setup_schedule : list Label := [GoProvision; Handshake; CallerReturn].

(** The moves of the goroutine from wake-up to its end when [n] deferred
    calls are pending. *)
Definition unwind_schedule (n : nat) : list Label :=
  repeat RunDeferred n ++ [TaskExit].

(** The deferred calls of the goroutine, [j] of them run off the stack
    [ds]: what is left of the stack, the panic in flight, the memory. *)
Fixpoint unwind (env : Env) (j : nat) (ds : list Deferred) (p : option Panic)
    (m : Mem) : list Deferred * option Panic * Mem :=
  match j with
  | O => (ds, p, m)
  | S j' =>
      match ds with
      | [] => (ds, p, m)
      | d :: ds' =>
          let '(q, m') := run_deferred env d m in
          unwind env j' ds' (match q with Some _ => q | None => p end) m'
      end
  end.

Definition Reachable (env : Env) (db0 : database.Database)
    (cfg0 : config.E2ERunnerConfig) (s : State) : Prop :=
  ∃ sched, run env sched (Setup db0 cfg0) = Some s.

(** What the goroutine reports on [ready] in a given world. *)
Definition reported (env : Env) (db0 : database.Database)
    (cfg0 : config.E2ERunnerConfig) : option error :=
  fst (fst (provision env (mem (Setup db0 cfg0)))).

Definition before_send (t : TaskPC) : bool :=
  match t with
  | Spawned | AtSend _ => true
  | _ => false
  end.

(** Where the goroutine can be, and with what memory. *)
Definition task_ok (env : Env) (db0 : database.Database)
    (cfg0 : config.E2ERunnerConfig) (s : State) : Prop :=
  let m0 := mem (Setup db0 cfg0) in
  let msg := fst (fst (provision env m0)) in
  let ds0 := snd (fst (provision env m0)) in
  let m1 := snd (provision env m0) in
  let m2 := snd (emit (EvReady msg) m1) in
  match task s with
  | Spawned => defers s = [] ∧ panicking s = None ∧ mem s = m0
  | AtSend x => x = msg ∧ defers s = ds0 ∧ panicking s = None ∧ mem s = m1
  | AtSelect => msg = None ∧ defers s = ds0 ∧ panicking s = None ∧ mem s = m2
  | Unwinding => ∃ j, (defers s, panicking s, mem s) = unwind env j ds0 None m2
  | Exited =>
      (∃ j, (defers s, panicking s, mem s) = unwind env j ds0 None m2)
      ∧ defers s = [] ∧ panicking s = None
  end.

(** Where the caller can be, and with what in hand. *)
Definition caller_ok (env : Env) (db0 : database.Database)
    (cfg0 : config.E2ERunnerConfig) (s : State) : Prop :=
  let msg := reported env db0 cfg0 in
  match caller s with
  | AtRecv => before_send (task s) = true ∧ done_closed s = false ∧ crashed s = None
  | Received x => x = msg ∧ before_send (task s) = false ∧ done_closed s = false
  | Returned td err =>
      err = msg ∧ before_send (task s) = false
      ∧ td = match msg with Some _ => None | None => Some CloseDone end
  end.

(** The contexts of the errors reported for a failure before the admin
    key exists. *)
Definition early_contexts : list string :=
  [ "failed to load database config"; "failed to connect to database";
    "error when finding the realm"; "failed to create realm";
    "failed to create suffix string for API keys";
    "error trying to create a new Admin API Key" ].

(** Some collaborator fails on a call the goroutine makes on its way to
    the two keys. *)
Definition provisioning_fault (env : Env) (db0 : database.Database) : Prop :=
  load_fault env ≠ None
  ∨ open_fault env ≠ None
  ∨ (∃ e, find_realm_fault env = Some e ∧ IsNotFound e = false)
  ∨ (save_realm_fault env ≠ None
     ∧ ((find_realm_fault env = None ∧ database.realms db0 !! realmName = None)
        ∨ ∃ e, find_realm_fault env = Some e ∧ IsNotFound e = true))
  ∨ rand_fault env ≠ None
  ∨ create_admin_fault env ≠ None
  ∨ create_device_fault env ≠ None.

(** [strings.TrimPrefix(s, prefix)] *)
Definition TrimPrefix (s prefix : string) : string :=
  if String.prefix prefix s
  then String.substring (String.length prefix)
         (String.length s - String.length prefix) s
  else s.

Definition is_revocation (e : Event) : bool :=
  match e with
  | EvFindAuthorizedAppByAPIKey _ | EvSaveAuthorizedApp _ => true
  | _ => false
  end.

Definition is_ready (e : Event) : bool :=
  match e with EvReady _ => true | _ => false end.

Definition is_create (e : Event) : bool :=
  match e with EvCreateAuthorizedApp _ _ => true | _ => false end.

(** *** Worlds and schedules to run the code in *)

(** Nothing fails; the entropy source delivers zeros. *)
Definition quiet : Env :=
  BuildEnv None None None None None (λ _, x00) None "admin-key" None "device-key"
           None None None None 100%Z 101%Z.

(** The insert of the device key fails. *)
Definition device_creation_fails : Env :=
  BuildEnv None None None None None (λ _, x00) None "admin-key"
           (Some (ErrExternal "insert failed")) "device-key"
           None None None None 100%Z 101%Z.

(** The lookup of the admin key fails during cleanup. *)
Definition admin_refetch_fails : Env :=
  BuildEnv None None None None None (λ _, x00) None "admin-key" None "device-key"
           None None (Some (ErrExternal "connection lost")) None 100%Z 101%Z.

(** The save of the device key fails during cleanup. *)
Definition device_persist_fails : Env :=
  BuildEnv None None None None None (λ _, x00) None "admin-key" None "device-key"
           None (Some (ErrExternal "connection lost")) None None 100%Z 101%Z.

(** The entropy source fails. *)
Definition entropy_fails : Env :=
  BuildEnv None None None None (Some (ErrExternal "entropy exhausted")) (λ _, x00)
           None "admin-key" None "device-key" None None None None 100%Z 101%Z.

Definition empty_db : database.Database := database.Build ∅ ∅ false.

Definition blank_cfg : config.E2ERunnerConfig :=
  config.BuildRunner (config.BuildTest "" "" false).

(** The state a schedule leads to from [Setup] on the empty database. *)
Definition outcome (env : Env) (sched : list Label) : State :=
  default (Setup empty_db blank_cfg) (run env sched (Setup empty_db blank_cfg)).

(** [Setup] returns, its result is called once, and the goroutine runs its
    [n] deferred calls to the end. *)
Definition whole_run (n : nat) : list Label :=
  setup_schedule ++ [InvokeTeardown; SelectWake] ++ unwind_schedule n.

(** [Setup] returns an error and the goroutine runs its [n] deferred calls
    to the end. *)
Definition failed_run (n : nat) : list Label :=
  setup_schedule ++ unwind_schedule n.

End e2e.

(** ** [cmd/e2e-runner]: the two handlers and their routes *)

Module runner.

(** Variables that outlive the call that declared them, by address. *)
Abbreviation Heap := (gmap nat config.E2ETestConfig).

Record Response := BuildResponse {
  status : nat;
  body : string
}.

(** A handler closure: the pointer [c] it captured, and the message it
    logs on failure. *)
Record Handler := BuildHandler {
  c : nat;
  failure : string
}.

(** The parameter [config] is passed by value: a variable of its own,
    holding a copy of the argument. [c := &config] is its address. *)
Definition defaultHandler (config : config.E2ETestConfig) (h : Heap)
    : Handler * Heap :=
  let c := fresh (dom h) in
  let h := <[c := config]> h in
  let h := alter (config.set_DoRevise false) c h in
  (BuildHandler c "could not run default end to end", h).

Definition reviseHandler (config : config.E2ETestConfig) (h : Heap)
    : Handler * Heap :=
  let c := fresh (dom h) in
  let h := <[c := config]> h in
  let h := alter (config.set_DoRevise true) c h in
  (BuildHandler c "could not run revise end to end", h).

Record Server := BuildServer {
  heap : Heap;
  e2eConfig : nat;                               (* where the shared configuration lives *)
  routes : list (string * Handler);
  runs : list (nat * config.E2ETestConfig);      (* calls of RunEndToEnd: pointer, pointee *)
  errlog : list (string * error)
}.

(** The routing part of [realMain]: both handlers are made from
    [e2eConfig.TestConfig]. *)
Definition realMain (TestConfig : config.E2ETestConfig) : Server :=
  let e2eConfig := 0%nat in
  let h : Heap := {[ e2eConfig := TestConfig ]} in
  let '(hd, h) := defaultHandler TestConfig h in
  let '(hr, h) := reviseHandler TestConfig h in
  BuildServer h e2eConfig [("/default", hd); ("/revise", hr)] [] [].

Definition lookup_route (path : string) (rs : list (string * Handler))
    : option Handler :=
  snd <$> List.find (λ r, String.eqb (fst r) path) rs.

Section Client.

(** Modelled from the spec: [runEndToEnd(ctx, testConfig) -> error], the
    workflow of [pkg/clients], which reads the configuration it is
    given. *)
Variable RunEndToEnd : config.E2ETestConfig → option error.

(** The closure a handler constructor returns, on one request. The
    variable a closure captured is always allocated: the first branch is
    there for totality and no handler of [realMain] takes it. [http.Error]
    ends the body with a newline. *)
Definition serve (hd : Handler) (srv : Server) : Response * Server :=
  match heap srv !! c hd with
  | None => (BuildResponse 500 "", srv)
  | Some conf =>
      let srv := BuildServer (heap srv) (e2eConfig srv) (routes srv)
                   (runs srv ++ [(c hd, conf)]) (errlog srv) in
      match RunEndToEnd conf with
      | Some err =>
          (BuildResponse 500
             ("failed (check server logs for more details): " +:+ Error err
              +:+ String (ascii_of_nat 10) ""),
           BuildServer (heap srv) (e2eConfig srv) (routes srv) (runs srv)
             (errlog srv ++ [(failure hd, err)]))
      | None => (BuildResponse 200 "ok", srv)
      end
  end.

Definition request (path : string) (srv : Server) : Response * Server :=
  match lookup_route path (routes srv) with
  | Some hd => serve hd srv
  | None => (BuildResponse 404 ("404 page not found" +:+ String (ascii_of_nat 10) ""), srv)
  end.

(** A sequence of requests, served one after the other. *)
Fixpoint requests (paths : list string) (srv : Server)
    : list Response * Server :=
  match paths with
  | [] => ([], srv)
  | p :: rest =>
      let '(r, srv) := request p srv in
      let '(rs, srv) := requests rest srv in
      (r :: rs, srv)
  end.

End Client.

(** The revise flag a route stands for. *)
Definition route_flag (path : string) : option bool :=
  if String.eqb "/default" path then Some false
  else if String.eqb "/revise" path then Some true
  else None.

(** The calls of the workflow a sequence of requests must lead to when
    [/default] runs on the variable at [cd] and [/revise] on the one at
    [cr], both copies of [conf] but for the flag. *)
Definition expected_runs (cd cr : nat) (conf : config.E2ETestConfig)
    (paths : list string) : list (nat * config.E2ETestConfig) :=
  flat_map (λ p, match route_flag p with
                 | Some b => [(if b then cr else cd, config.set_DoRevise b conf)]
                 | None => []
                 end) paths.

(** A workflow that always succeeds. *)
Definition always_ok : config.E2ETestConfig → option error := λ _, None.

End runner.

(** * Properties *)

(** ** The checksum and its hexadecimal form *)

Lemma be_bytes_length w x : length (Sha256.be_bytes w x) = w.
Proof. induction w as [|w IH]; simpl; [reflexivity | now rewrite IH]. Qed.

Lemma Sum256_length data : length (Sha256.Sum256 data) = 32%nat.
Proof. unfold Sha256.Sum256. rewrite !length_app, !be_bytes_length. reflexivity. Qed.

Lemma hex_byte_lower b : forallb Fmt.is_lower_hex (Fmt.hex_byte b) = true.
Proof. destruct b; reflexivity. Qed.

Lemma hex_lower bs : forallb Fmt.is_lower_hex (flat_map Fmt.hex_byte bs) = true.
Proof.
  induction bs as [|b bs IH]; [reflexivity|].
  cbn [flat_map]. rewrite forallb_app, hex_byte_lower, IH. reflexivity.
Qed.

Lemma hex_length bs : length (flat_map Fmt.hex_byte bs) = (2 * length bs)%nat.
Proof. induction bs as [|b bs IH]; simpl in *; [reflexivity | rewrite IH; lia]. Qed.

Lemma string_of_list_length l : String.length (string_of_list_ascii l) = length l.
Proof. induction l; simpl; congruence. Qed.

Lemma Sprintf_x_length bs : String.length (Fmt.Sprintf_x bs) = (2 * length bs)%nat.
Proof. unfold Fmt.Sprintf_x. now rewrite string_of_list_length, hex_length. Qed.

Lemma Sprintf_x_lower bs :
  forallb Fmt.is_lower_hex (list_ascii_of_string (Fmt.Sprintf_x bs)) = true.
Proof.
  unfold Fmt.Sprintf_x. rewrite list_ascii_of_string_of_list_ascii. apply hex_lower.
Qed.

Example sha256_empty :
  Fmt.Sprintf_x (Sha256.Sum256 []) =
  "e3b0c44298fc1c149afbf4c8996fb92427ae41e4649b934ca495991b7852b855"%string.
Proof. vm_compute. reflexivity. Qed.

Example sha256_abc :
  Fmt.Sprintf_x (Sha256.Sum256 [x61; x62; x63]) =
  "ba7816bf8f01cfea414140de5dae2223b00361a396177a9cb410ff61f20015ad"%string.
Proof. vm_compute. reflexivity. Qed.

Example sha256_two_blocks :
  Fmt.Sprintf_x (Sha256.Sum256
    (List.map byte_of_ascii (list_ascii_of_string
       "abcdbcdecdefdefgefghfghighijhijkijkljklmklmnlmnomnopnopq"))) =
  "248d6a61d20638b8e5c026930c3e6039a33ce45964ff2167f6ecedd419db06c1"%string.
Proof. vm_compute. reflexivity. Qed.

Section E2E.

Import e2e.

(** ** [randomString] *)

Lemma rand_Read_length env n b : rand_Read env n = inl b → length b = n.
Proof.
  unfold rand_Read. destruct (rand_fault env); [discriminate|].
  intros [= <-]. now rewrite List.length_map, List.length_seq.
Qed.

Lemma randomString_shape env suffix :
  randomString env = inl suffix →
  ∃ b, rand_Read env 512 = inl b ∧ length b = 512%nat
       ∧ suffix = Fmt.Sprintf_x (Sha256.Sum256 b)
       ∧ String.length suffix = 64%nat
       ∧ forallb Fmt.is_lower_hex (list_ascii_of_string suffix) = true.
Proof.
  unfold randomString. destruct (rand_Read env 512) as [b|e] eqn:Hr; [|discriminate].
  intros [= <-]. exists b.
  split; [reflexivity|].
  split; [exact (rand_Read_length _ _ _ Hr)|].
  split; [reflexivity|].
  split; [now rewrite Sprintf_x_length, Sum256_length | apply Sprintf_x_lower].
Qed.

Lemma randomString_fails env e :
  rand_fault env = Some e →
  randomString env = inr (ErrText "failed to generate random" e).
Proof. unfold randomString, rand_Read. now intros ->. Qed.

(** ** The goroutine up to its send *)

Ltac task_unfold :=
  unfold run_deferred, provision, find_or_create_realm, admin_cleanup,
    device_cleanup, update, query, Errorf, Info, bind, ret, emit,
    database.Open, database.Close, database.FindRealmByName, database.SaveRealm,
    database.CreateAuthorizedApp, database.FindAuthorizedAppByAPIKey,
    database.SaveAuthorizedApp, database.NewRealmWithDefaults in *.

Ltac case_step :=
  match goal with
  | |- context [match ?x with _ => _ end] =>
      lazymatch x with
      | context [match _ with _ => _ end] => fail
      | _ => destruct x eqn:?
      end
  | |- context [if ?x then _ else _] => destruct x eqn:?
  end; cbn in *.

Ltac filters := rewrite ?List.filter_app; cbn; rewrite ?app_nil_r, <- ?app_assoc.

Lemma provision_ready env m ds m' :
  provision env m = (None, ds, m') →
  ∃ realm suffix,
    let ak := admin_key_value env in
    let dk := device_key_value env in
    let adm := AuthorizedApp.Build (Realm.ID realm) (adminKeyName +:+ suffix) ak
                 APIKeyTypeAdmin None in
    let dev := AuthorizedApp.Build (Realm.ID realm) (deviceKeyName +:+ suffix) dk
                 APIKeyTypeDevice None in
    randomString env = inl suffix ∧
    ds = [DeferDeviceCleanup dk; DeferAdminCleanup ak; DeferClose] ∧
    database.apps (db m) !! ak = None ∧
    database.apps (db m) !! dk = None ∧
    ak ≠ dk ∧
    database.apps (db m') = <[dk := dev]> (<[ak := adm]> (database.apps (db m))) ∧
    database.realms (db m') !! realmName = Some realm ∧
    config.TestConfig (cfg m') =
      config.BuildTest ak dk (config.DoRevise (config.TestConfig (cfg m))) ∧
    List.filter is_create (trace m') =
      List.filter is_create (trace m) ++
        [EvCreateAuthorizedApp (adminKeyName +:+ suffix) APIKeyTypeAdmin;
         EvCreateAuthorizedApp (deviceKeyName +:+ suffix) APIKeyTypeDevice].
Proof.
  task_unfold. cbn.
  repeat case_step; intros H; try discriminate H.
  all: injection H as <- <-; cbn.
  all: match goal with
       | H : <[_ := _]> _ !! _ = None |- _ =>
           apply lookup_insert_None in H; destruct H as [Hdk Hne]
       end.
  all: eexists _, _; repeat split.
  all: try first [eassumption | apply lookup_insert_eq].
  all: try reflexivity.
  all: filters; reflexivity.
Qed.

Lemma provision_failed env m err ds m' :
  provision env m = (Some err, ds, m') →
  (∃ c cause, err = ErrWrap c cause ∧ In c early_contexts
     ∧ (ds = [] ∨ ds = [DeferClose])
     ∧ database.apps (db m') = database.apps (db m))
  ∨ (∃ realm suffix cause,
       let ak := admin_key_value env in
       let adm := AuthorizedApp.Build (Realm.ID realm) (adminKeyName +:+ suffix) ak
                    APIKeyTypeAdmin None in
       err = ErrWrap "error trying to create a new Device API Key" cause
       ∧ ds = [DeferAdminCleanup ak; DeferClose]
       ∧ database.apps (db m) !! ak = None
       ∧ database.apps (db m') = <[ak := adm]> (database.apps (db m))).
Proof.
  task_unfold. cbn.
  repeat case_step; intros H; try discriminate H.
  all: injection H as <- <- <-; cbn.
  all: try (left; eexists _, _; split; [reflexivity|];
            split; [cbn; tauto|]; split; [tauto | reflexivity]).
  all: right; eexists (Realm.Build _ "" ""), _, _; cbn.
  all: repeat split; try eassumption; reflexivity.
Qed.

Lemma provision_trace env m :
  ∃ evs, trace (snd (provision env m)) = trace m ++ evs
         ∧ List.filter is_revocation evs = []
         ∧ List.filter is_ready evs = [].
Proof.
  task_unfold. cbn.
  repeat case_step.
  all: try (exists []; rewrite app_nil_r; repeat split; reflexivity).
  all: rewrite <- ?app_assoc; cbn; eexists; split; [reflexivity|]; split; reflexivity.
Qed.


(** ** The deferred calls *)

Lemma run_deferred_trace env d m :
  ∃ evs, trace (snd (run_deferred env d m)) = trace m ++ evs
         ∧ List.filter is_ready evs = []
         ∧ List.filter is_create evs = []
         ∧ (d = DeferClose →
            List.filter is_revocation evs = []
            ∧ database.apps (db (snd (run_deferred env d m))) = database.apps (db m)).
Proof.
  destruct d; task_unfold; cbn.
  all: repeat case_step.
  all: rewrite <- ?app_assoc; cbn; eexists; split; [reflexivity|].
  all: repeat split; try reflexivity; discriminate.
Qed.

Lemma unwind_trace env j : ∀ ds p m,
  ∃ evs, trace (snd (unwind env j ds p m)) = trace m ++ evs
         ∧ List.filter is_ready evs = []
         ∧ List.filter is_create evs = []
         ∧ ((∀ d, In d ds → d = DeferClose) →
            List.filter is_revocation evs = []
            ∧ database.apps (db (snd (unwind env j ds p m))) = database.apps (db m)).
Proof.
  induction j as [|j IH]; intros ds p m; cbn.
  - exists []. rewrite app_nil_r. repeat split; reflexivity.
  - destruct ds as [|d ds]; cbn.
    + exists []. rewrite app_nil_r. repeat split; reflexivity.
    + destruct (run_deferred_trace env d m) as (ev1 & Ht1 & Hr1 & Hc1 & Hd1).
      destruct (run_deferred env d m) as [q m1]; cbn in *.
      destruct (IH ds (match q with Some _ => q | None => p end) m1)
        as (ev2 & Ht2 & Hr2 & Hc2 & Hd2).
      exists (ev1 ++ ev2). rewrite Ht2, Ht1, <- app_assoc.
      split; [reflexivity|].
      rewrite !List.filter_app, Hr1, Hr2, Hc1, Hc2.
      split; [reflexivity|]. split; [reflexivity|].
      intros Hall.
      destruct (Hd1 (Hall d (or_introl eq_refl))) as [Hv1 Ha1].
      destruct (Hd2 (λ d' Hin, Hall d' (or_intror Hin))) as [Hv2 Ha2].
      rewrite Hv1, Hv2, Ha2, Ha1. split; reflexivity.
Qed.

Lemma unwind_next env j : ∀ ds p m d ds' p' m',
  unwind env j ds p m = (d :: ds', p', m') →
  unwind env (S j) ds p m =
    (ds',
     match fst (run_deferred env d m') with Some q => Some q | None => p' end,
     snd (run_deferred env d m')).
Proof.
  induction j as [|j IH]; intros ds p m d ds' p' m' H.
  - cbn in H. injection H as -> -> ->. cbn.
    destruct (run_deferred env d m') as [q m1]; cbn. now destruct q.
  - cbn in H. destruct ds as [|d0 ds0]; [discriminate|].
    change (unwind env (S (S j)) (d0 :: ds0) p m)
      with (let '(q, m1) := run_deferred env d0 m in
            unwind env (S j) ds0 (match q with Some _ => q | None => p end) m1).
    destruct (run_deferred env d0 m) as [q m1].
    now apply IH.
Qed.

(** ** Schedules *)

Lemma run_snoc env sched l s :
  run env (sched ++ [l]) s =
  match run env sched s with
  | Some s' => step env l s'
  | None => None
  end.
Proof.
  revert s. induction sched as [|l0 sched IH]; intros s; cbn.
  - now destruct (step env l s).
  - destruct (step env l0 s); [apply IH | reflexivity].
Qed.

Lemma run_app env sched1 sched2 s :
  run env (sched1 ++ sched2) s =
  match run env sched1 s with
  | Some s' => run env sched2 s'
  | None => None
  end.
Proof.
  revert s. induction sched1 as [|l0 sched1 IH]; intros s; cbn; [reflexivity|].
  destruct (step env l0 s); [apply IH | reflexivity].
Qed.

Lemma reachable_ind env db0 cfg0 (P : State → Prop) :
  P (Setup db0 cfg0) →
  (∀ l s s', Reachable env db0 cfg0 s → P s → step env l s = Some s' → P s') →
  ∀ s, Reachable env db0 cfg0 s → P s.
Proof.
  intros H0 Hstep s [sched Hrun]. revert s Hrun.
  induction sched as [|l sched IH] using rev_ind; intros s Hrun.
  - cbn in Hrun. now injection Hrun as <-.
  - rewrite run_snoc in Hrun.
    destruct (run env sched (Setup db0 cfg0)) as [s1|] eqn:H1; [|discriminate].
    eapply Hstep; [exists sched; exact H1 | now apply IH | exact Hrun].
Qed.

(** ** The reachable states *)

Lemma step_ok env db0 cfg0 l s s' :
  task_ok env db0 cfg0 s ∧ caller_ok env db0 cfg0 s →
  step env l s = Some s' →
  task_ok env db0 cfg0 s' ∧ caller_ok env db0 cfg0 s'.
Proof.
  unfold task_ok, caller_ok, reported, step.
  destruct s as [c t ds p dc cd m cr]; cbn.
  destruct (provision env (BuildMem db0 cfg0 [])) as [[msg ds0] m1] eqn:Hp; cbn.
  intros [Ht Hc].
  destruct cr; [discriminate|].
  destruct l; cbn.
  - (* GoProvision *)
    destruct t; try discriminate.
    destruct Ht as (-> & -> & ->). cbn in Hp. rewrite Hp.
    intros [= <-]; cbn. destruct c; cbn in *; intuition congruence.
  - (* Handshake *)
    destruct t; try discriminate. destruct c; try discriminate.
    destruct Ht as (-> & -> & -> & ->).
    intros [= <-]; cbn. destruct msg; cbn; intuition (try congruence).
    exists 0%nat. reflexivity.
  - (* CallerReturn *)
    destruct c as [|[e|]|]; try discriminate.
    + destruct Hc as (<- & Hb & ->). unfold close_done; cbn.
      intros [= <-]; cbn. intuition.
    + destruct Hc as (<- & Hb & ->).
      intros [= <-]; cbn. intuition.
  - (* InvokeTeardown *)
    destruct c as [| |[[]|] e]; try discriminate.
    + unfold close_done, close_chan; cbn. destruct dc; cbn; intros [= <-]; cbn; intuition.
    + intros [= <-]; cbn; intuition.
  - (* CtxCancel *)
    intros [= <-]; cbn. intuition.
  - (* SelectWake *)
    destruct t; try discriminate. destruct (dc || cd); [|discriminate].
    intros [= <-]; cbn. destruct Ht as (-> & -> & -> & ->).
    split; [exists 0%nat; reflexivity|].
    destruct c; cbn in *; intuition congruence.
  - (* RunDeferred *)
    destruct t; try discriminate. destruct ds as [|d ds]; [discriminate|].
    destruct Ht as [j Hj].
    symmetry in Hj. apply unwind_next in Hj.
    destruct (run_deferred env d m) as [q m'] eqn:Hd; cbn [fst snd] in Hj.
    intros [= <-]; cbn [task caller defers panicking mem done_closed crashed].
    split; [exists (S j); rewrite Hj; now destruct q|].
    destruct c; cbn in *; intuition congruence.
  - (* TaskExit *)
    destruct t; try discriminate. destruct ds; [|discriminate].
    destruct p; intros [= <-]; cbn.
    + split; [exact Ht|]. destruct c; cbn in *; intuition congruence.
    + split; [intuition|]. destruct c; cbn in *; intuition congruence.
Qed.

Lemma reachable_ok env db0 cfg0 s :
  Reachable env db0 cfg0 s →
  task_ok env db0 cfg0 s ∧ caller_ok env db0 cfg0 s.
Proof.
  revert s.
  apply (reachable_ind env db0 cfg0
           (λ s, task_ok env db0 cfg0 s ∧ caller_ok env db0 cfg0 s)).
  - unfold task_ok, caller_ok; cbn. intuition.
  - intros l s1 s2 _ H Hs. eapply step_ok; eassumption.
Qed.


Lemma reachable_trace env db0 cfg0 s :
  Reachable env db0 cfg0 s →
  let m0 := mem (Setup db0 cfg0) in
  let m1 := snd (provision env m0) in
  if before_send (task s) then mem s = m0 ∨ mem s = m1
  else ∃ evs, trace (mem s) = trace m1 ++ EvReady (reported env db0 cfg0) :: evs
              ∧ List.filter is_ready evs = []
              ∧ List.filter is_create evs = []
              ∧ ((∀ d, In d (snd (fst (provision env m0))) → d = DeferClose) →
                 List.filter is_revocation evs = []
                 ∧ database.apps (db (mem s)) = database.apps (db m1)).
Proof.
  intros Hr. destruct (reachable_ok _ _ _ _ Hr) as [Ht _].
  unfold task_ok, reported in *. cbn zeta in *.
  set (m0 := mem (Setup db0 cfg0)) in *.
  set (m2 := snd (emit _ _)) in *.
  assert (Hu : ∀ j ds p m',
             (ds, p, m') = unwind env j (snd (fst (provision env m0))) None m2 →
             ∃ evs, trace m' = trace (snd (provision env m0))
                               ++ EvReady (fst (fst (provision env m0))) :: evs
              ∧ List.filter is_ready evs = []
              ∧ List.filter is_create evs = []
              ∧ ((∀ d, In d (snd (fst (provision env m0))) → d = DeferClose) →
                 List.filter is_revocation evs = []
                 ∧ database.apps (db m') = database.apps (db (snd (provision env m0))))).
  { intros j ds p m' Hj.
    destruct (unwind_trace env j (snd (fst (provision env m0))) None m2)
      as (evs & He & H1 & H2 & H3).
    rewrite <- Hj in He, H3. cbn in He, H3.
    exists evs. rewrite He, <- app_assoc. cbn. repeat split; try assumption.
    all: now apply H3. }
  destruct (task s); cbn.
  - left; apply Ht.
  - right; apply Ht.
  - destruct Ht as (_ & _ & _ & ->). exists []. cbn. repeat split; reflexivity.
  - destruct Ht as [j Hj]. eapply Hu, Hj.
  - destruct Ht as ([j Hj] & _). eapply Hu, Hj.
Qed.

Lemma unwind_all env j : ∀ ds p m,
  fst (fst (unwind env j ds p m)) = [] →
  unwind env j ds p m = unwind env (length ds) ds p m.
Proof.
  induction j as [|j IH]; intros ds p m; cbn.
  - now intros ->.
  - destruct ds as [|d ds]; cbn; [reflexivity|].
    destruct (run_deferred env d m) as [q m1]. apply IH.
Qed.

Lemma device_cleanup_no_panic env deviceKey m :
  fst (device_cleanup env deviceKey m) = None.
Proof. task_unfold; cbn. repeat case_step; reflexivity. Qed.

Lemma device_cleanup_done env deviceKey m app :
  find_device_fault env = None → save_device_fault env = None →
  database.apps (db m) !! deviceKey = Some app →
  let app' := AuthorizedApp.set_DeletedAt (Some (now_device env)) app in
  device_cleanup env deviceKey m =
    (None,
     BuildMem (database.set_apps (<[AuthorizedApp.APIKey app := app']> (database.apps (db m)))
                 (db m))
              (cfg m)
              (trace m ++ [EvFindAuthorizedAppByAPIKey deviceKey; EvSaveAuthorizedApp app';
                           EvLog (LogInfo "successfully cleaned up e2e test device key")])).
Proof.
  intros Hf Hs Hl. task_unfold; cbn. rewrite Hf, Hs; cbn. rewrite Hl; cbn.
  now rewrite <- !app_assoc.
Qed.

Lemma admin_cleanup_done env adminKey m app :
  find_admin_fault env = None → save_admin_fault env = None →
  database.apps (db m) !! adminKey = Some app →
  let app' := AuthorizedApp.set_DeletedAt (Some (now_admin env)) app in
  admin_cleanup env adminKey m =
    (None,
     BuildMem (database.set_apps (<[AuthorizedApp.APIKey app := app']> (database.apps (db m)))
                 (db m))
              (cfg m)
              (trace m ++ [EvFindAuthorizedAppByAPIKey adminKey; EvSaveAuthorizedApp app';
                           EvLog (LogInfo "successfully cleaned up e2e test admin key")])).
Proof.
  intros Hf Hs Hl. task_unfold; cbn. rewrite Hf, Hs; cbn. rewrite Hl; cbn.
  now rewrite <- !app_assoc.
Qed.

Lemma admin_cleanup_nil env adminKey m e :
  find_admin_fault env = Some e →
  admin_cleanup env adminKey m =
    (Some NilPointerDereference,
     BuildMem (db m) (cfg m)
              (trace m ++ [EvFindAuthorizedAppByAPIKey adminKey;
                           EvLog (LogError "admin API key cleanup failed" e)])).
Proof.
  intros Hf. task_unfold; cbn. rewrite Hf; cbn. now rewrite <- !app_assoc.
Qed.

Lemma provisioning_fault_reported env db0 cfg0 :
  provisioning_fault env db0 → reported env db0 cfg0 ≠ None.
Proof.
  unfold provisioning_fault, reported. cbn [Setup mem].
  task_unfold; cbn.
  repeat case_step; try discriminate.
  all: intros H _.
  all: repeat match goal with
       | H : ∃ _, _ |- _ => destruct H
       | H : _ ∧ _ |- _ => destruct H
       | H : _ ∨ _ |- _ => destruct H
       | H : Some _ = Some _ |- _ => injection H as H; subst
       | H : negb _ = false |- _ => apply negb_false_iff in H
       | H : negb _ = true |- _ => apply negb_true_iff in H
       end; try congruence.
  all: match goal with
       | H : randomString _ = inl _ |- _ =>
           unfold randomString, rand_Read in H;
           destruct (rand_fault env); [discriminate | congruence]
       end.
Qed.


(** ** [Setup] towards its caller *)

Lemma Setup_returns env db0 cfg0 :
  let msg := reported env db0 cfg0 in
  ∃ s, run env setup_schedule (Setup db0 cfg0) = Some s
       ∧ caller s = Returned (match msg with Some _ => None | None => Some CloseDone end) msg
       ∧ crashed s = None.
Proof.
  unfold reported. cbn.
  destruct (provision env (BuildMem db0 cfg0 [])) as [[[e|] ds] m1]; cbn.
  all: eexists; repeat split; reflexivity.
Qed.

(** C1. [Setup] blocks its caller until the goroutine has reported on
    [ready]; it returns in every world; what it returns is either the
    reported error with a nil function, which is the case whenever a
    provisioning call fails, or a nil error with the function that closes
    [done]. Calling that function is one move of the caller: it closes
    [done], leaves the goroutine where it is with its deferred calls still
    pending, and lets a goroutine waiting in [select] go on to them. *)
Theorem Setup_blocks_then_returns_error_or_teardown env db0 cfg0 :
  let msg := reported env db0 cfg0 in
  (provisioning_fault env db0 → msg ≠ None)
  ∧ (∃ s td, run env setup_schedule (Setup db0 cfg0) = Some s
             ∧ caller s = Returned td msg)
  ∧ ∀ sched s,
      run env sched (Setup db0 cfg0) = Some s →
      (List.filter is_ready (trace (mem s)) = [] → caller s = AtRecv)
      ∧ ∀ td err,
          caller s = Returned td err →
          In (EvReady msg) (trace (mem s))
          ∧ err = msg
          ∧ ((∃ e, err = Some e ∧ td = None) ∨ (err = None ∧ td = Some CloseDone))
          ∧ (td = Some CloseDone → crashed s = None → done_closed s = false →
             ∃ s', step env InvokeTeardown s = Some s'
                   ∧ done_closed s' = true ∧ crashed s' = None
                   ∧ task s' = task s ∧ defers s' = defers s ∧ mem s' = mem s
                   ∧ (task s = AtSelect →
                      step env SelectWake s' = Some (set_task Unwinding s'))).
Proof.
  cbn zeta. split; [apply provisioning_fault_reported|].
  split.
  { destruct (Setup_returns env db0 cfg0) as (s & Hr & Hc & _). eauto. }
  intros sched s Hrun.
  assert (Hreach : Reachable env db0 cfg0 s) by (exists sched; exact Hrun).
  destruct (reachable_ok _ _ _ _ Hreach) as [Ht Hc].
  pose proof (reachable_trace _ _ _ _ Hreach) as Htr. cbn zeta in Htr.
  assert (Hin : before_send (task s) = false →
                In (EvReady (reported env db0 cfg0)) (trace (mem s))).
  { intros Hb. rewrite Hb in Htr. destruct Htr as (evs & -> & _).
    apply in_or_app. right. now left. }
  split.
  - intros Hnil. unfold caller_ok in Hc. destruct (caller s); [reflexivity| |].
    + destruct Hc as (_ & Hb & _). apply Hin in Hb.
      assert (Hf : In (EvReady (reported env db0 cfg0))
                      (List.filter is_ready (trace (mem s))))
        by (apply List.filter_In; split; [exact Hb | reflexivity]).
      rewrite Hnil in Hf. destruct Hf.
    + destruct Hc as (_ & Hb & _). apply Hin in Hb.
      assert (Hf : In (EvReady (reported env db0 cfg0))
                      (List.filter is_ready (trace (mem s))))
        by (apply List.filter_In; split; [exact Hb | reflexivity]).
      rewrite Hnil in Hf. destruct Hf.
  - intros td err Hret. unfold caller_ok in Hc. rewrite Hret in Hc.
    destruct Hc as (-> & Hb & ->).
    split; [now apply Hin|]. split; [reflexivity|].
    split.
    { destruct (reported env db0 cfg0) as [e|]; [left; eauto | right; eauto]. }
    intros Htd Hcr Hdc.
    unfold step. rewrite Hcr, Hret.
    destruct (reported env db0 cfg0) as [e|]; [discriminate|].
    unfold close_done, close_chan. rewrite Hdc.
    eexists; split; [reflexivity|]. cbn.
    repeat split; try assumption.
    intros Hsel. unfold step. cbn. rewrite Hcr, Hsel. reflexivity.
Qed.

Lemma Setup_blocks_then_returns_error_or_teardown_witness :
  ∃ s', step quiet InvokeTeardown (outcome quiet setup_schedule) = Some s'
        ∧ done_closed s' = true ∧ crashed s' = None.
Proof.
  destruct (Setup_blocks_then_returns_error_or_teardown quiet empty_db blank_cfg)
    as (_ & _ & H).
  specialize (H setup_schedule (outcome quiet setup_schedule)
                ltac:(vm_compute; reflexivity)).
  destruct H as [_ H].
  destruct (H (Some CloseDone) None eq_refl) as (_ & _ & _ & H3).
  destruct (H3 eq_refl eq_refl eq_refl) as (s' & Hs & Hd & Hc & _).
  exists s'. split; [exact Hs|]. split; assumption.
Defined.


(** ** The report on [ready] and the revocations *)

Lemma admin_cleanup_attempt env adminKey m :
  ∃ evs, trace (snd (admin_cleanup env adminKey m)) =
         trace m ++ EvFindAuthorizedAppByAPIKey adminKey :: evs.
Proof.
  task_unfold; cbn. repeat case_step.
  all: rewrite <- ?app_assoc; cbn; eexists; reflexivity.
Qed.

Lemma exited_unwound env db0 cfg0 s :
  Reachable env db0 cfg0 s → task s = Exited →
  let m0 := mem (Setup db0 cfg0) in
  let ds0 := snd (fst (provision env m0)) in
  let m2 := snd (emit (EvReady (reported env db0 cfg0)) (snd (provision env m0))) in
  unwind env (length ds0) ds0 None m2 = ([], None, mem s).
Proof.
  intros Hr Hex. destruct (reachable_ok _ _ _ _ Hr) as [Ht _].
  unfold task_ok in Ht. rewrite Hex in Ht. cbn zeta in *.
  destruct Ht as ([j Hj] & Hd & Hp). rewrite Hd, Hp in Hj.
  unfold reported. rewrite <- (unwind_all env j); [now symmetry|].
  now rewrite <- Hj.
Qed.

(** C4, as the code has it. The goroutine sends on [ready] once: no send
    is on record before the handshake and exactly one, of the value
    [provision] computed, from then on. Every revocation call on record
    comes after that send. A failure reported with any context but the
    device key's is followed by no revocation at all; when it is the
    creation of the device key that failed, the goroutine, before it
    ends, attempts the revocation of the admin key it had created. *)
Theorem ready_sent_once_and_before_any_revocation env db0 cfg0 sched s :
  run env sched (Setup db0 cfg0) = Some s →
  let msg := reported env db0 cfg0 in
  List.filter is_ready (trace (mem s)) =
    (if before_send (task s) then [] else [EvReady msg])
  ∧ (∃ pre post, trace (mem s) = pre ++ post
       ∧ List.filter is_revocation pre = []
       ∧ if before_send (task s) then post = [] else ∃ rest, post = EvReady msg :: rest)
  ∧ (msg = None ∨ ∃ c cause, msg = Some (ErrWrap c cause))
  ∧ (∀ c cause, msg = Some (ErrWrap c cause) →
       c ≠ "error trying to create a new Device API Key" →
       List.filter is_revocation (trace (mem s)) = [])
  ∧ (∀ cause, msg = Some (ErrWrap "error trying to create a new Device API Key" cause) →
       task s = Exited →
       ∃ pre rest, trace (mem s) = pre ++ EvReady msg :: rest
         ∧ In (EvFindAuthorizedAppByAPIKey (admin_key_value env)) rest).
Proof.
  intros Hrun. cbn zeta.
  assert (Hreach : Reachable env db0 cfg0 s) by (exists sched; exact Hrun).
  pose proof (reachable_trace _ _ _ _ Hreach) as Htr. cbn zeta in Htr.
  pose proof (exited_unwound _ _ _ _ Hreach) as Hex. cbn zeta in Hex.
  destruct (provision_trace env (mem (Setup db0 cfg0))) as (ev0 & Hp0 & Hv0 & Hr0).
  cbn [Setup mem trace app] in Hp0.
  unfold reported in *. cbn [Setup mem] in *.
  destruct (provision env (BuildMem db0 cfg0 [])) as [[msg ds0] m1] eqn:Hp.
  cbn [fst snd] in *.
  split; [|split; [|split; [|split]]].
  - destruct (before_send (task s)).
    + destruct Htr as [-> | ->]; [reflexivity | now rewrite Hp0].
    + destruct Htr as (evs & -> & He & _).
      rewrite List.filter_app, Hp0, Hr0. cbn. now rewrite He.
  - destruct (before_send (task s)).
    + exists (trace (mem s)), []. rewrite app_nil_r. split; [reflexivity|].
      split; [|reflexivity].
      destruct Htr as [-> | ->]; [reflexivity | now rewrite Hp0].
    + destruct Htr as (evs & -> & _). exists (trace m1), (EvReady msg :: evs).
      split; [reflexivity|]. split; [now rewrite Hp0 | eauto].
  - destruct msg as [err|]; [right | now left].
    destruct (provision_failed _ _ _ _ _ Hp) as [(c & cause & -> & _)|(r & sf & cause & H)].
    + eauto.
    + cbn zeta in H. destruct H as (-> & _). eauto.
  - intros c cause -> Hc.
    destruct (provision_failed _ _ _ _ _ Hp) as [(c' & cause' & _ & _ & Hds & _)|(r & sf & cause' & H)].
    2:{ cbn zeta in H. destruct H as (H & _). congruence. }
    assert (Hall : ∀ d, In d ds0 → d = DeferClose).
    { destruct Hds as [-> | ->]; cbn; intuition. }
    destruct (before_send (task s)).
    + destruct Htr as [-> | ->]; [reflexivity | now rewrite Hp0].
    + destruct Htr as (evs & -> & _ & _ & H). destruct (H Hall) as [H1 _].
      rewrite List.filter_app, Hp0, Hv0. cbn. exact H1.
  - intros cause -> Hexit. specialize (Hex Hexit).
    destruct (provision_failed _ _ _ _ _ Hp) as [(c' & cause' & Hc' & Hin & _)|(r & sf & cause' & H)].
    { injection Hc' as <- <-. cbn in Hin. intuition discriminate. }
    cbn zeta in H. destruct H as (_ & -> & _).
    cbn [length unwind run_deferred] in Hex.
    destruct (admin_cleanup_attempt env (admin_key_value env)
                (snd (emit (EvReady (Some (ErrWrap
                   "error trying to create a new Device API Key" cause))) m1)))
      as (evs & He).
    destruct (admin_cleanup env _ _) as [q ma]. cbn [snd] in He.
    cbn in Hex. injection Hex as _ <-. cbn [trace].
    rewrite He. cbn [emit snd trace]. rewrite <- !app_assoc. cbn.
    eexists _, _. split; [reflexivity|]. now left.
Qed.

Lemma ready_sent_once_and_before_any_revocation_witness :
  ∃ pre rest,
    trace (mem (outcome device_creation_fails (failed_run 2))) =
      pre ++ EvReady (reported device_creation_fails empty_db blank_cfg) :: rest
    ∧ In (EvFindAuthorizedAppByAPIKey "admin-key") rest.
Proof.
  destruct (ready_sent_once_and_before_any_revocation device_creation_fails
              empty_db blank_cfg (failed_run 2)
              (outcome device_creation_fails (failed_run 2))
              ltac:(vm_compute; reflexivity)) as (_ & _ & _ & _ & H).
  exact (H (ErrExternal "insert failed") ltac:(vm_compute; reflexivity)
           ltac:(vm_compute; reflexivity)).
Defined.

(** C4, as the claim has it, fails: after the failure to create the device
    key has been reported, the goroutine revokes the admin key. *)
Lemma starting_failure_then_revocation :
  ∃ s err,
    run device_creation_fails (failed_run 2) (Setup empty_db blank_cfg) = Some s
    ∧ reported device_creation_fails empty_db blank_cfg = Some err
    ∧ task s = Exited
    ∧ List.filter is_ready (trace (mem s)) = [EvReady (Some err)]
    ∧ List.filter is_revocation (trace (mem s)) ≠ [].
Proof.
  eexists _, _. split; [vm_compute; reflexivity|].
  split; [vm_compute; reflexivity|].
  split; [reflexivity|]. split; [reflexivity|]. discriminate.
Qed.


(** ** A failed [Setup] and the credentials *)

(** C7, as the code has it. When provisioning fails, [Setup] returns the
    error and a nil function. If the failure is reported with any context
    but the device key's, the table of authorized apps is, at every moment,
    the one [Setup] started from. If it is the creation of the device key
    that failed, the admin key this call created is in the table, and once
    the goroutine has ended after a lookup and a save that worked, it is
    there soft-deleted. *)
Theorem failed_Setup_returns_error_admin_key_soft_deleted env db0 cfg0 err :
  reported env db0 cfg0 = Some err →
  (∃ s, run env setup_schedule (Setup db0 cfg0) = Some s
        ∧ caller s = Returned None (Some err))
  ∧ (∀ sched s td e, run env sched (Setup db0 cfg0) = Some s →
       caller s = Returned td e → td = None ∧ e = Some err)
  ∧ ((∀ cause, err ≠ ErrWrap "error trying to create a new Device API Key" cause) →
     ∀ sched s, run env sched (Setup db0 cfg0) = Some s →
       database.apps (db (mem s)) = database.apps db0)
  ∧ (∀ cause, err = ErrWrap "error trying to create a new Device API Key" cause →
     database.apps db0 !! admin_key_value env = None
     ∧ ∀ sched s, run env sched (Setup db0 cfg0) = Some s →
         task s = Exited →
         find_admin_fault env = None → save_admin_fault env = None →
         ∃ adm, database.apps (db (mem s)) =
                  <[admin_key_value env := adm]> (database.apps db0)
                ∧ AuthorizedApp.KeyType adm = APIKeyTypeAdmin
                ∧ AuthorizedApp.DeletedAt adm = Some (now_admin env)).
Proof.
  intros Hrep.
  split; [|split; [|split]].
  - destruct (Setup_returns env db0 cfg0) as (s & Hr & Hc & _).
    cbn zeta in Hc. rewrite Hrep in Hc. eauto.
  - intros sched s td e Hrun Hret.
    destruct (reachable_ok env db0 cfg0 s (ex_intro _ sched Hrun)) as [_ Hc].
    unfold caller_ok in Hc. rewrite Hret, Hrep in Hc. now destruct Hc as (-> & _ & ->).
  - intros Hnd sched s Hrun.
    pose proof (reachable_trace _ _ _ _ (ex_intro _ sched Hrun)) as Htr.
    unfold reported in *. cbn [Setup mem] in *. cbn zeta in Htr.
    destruct (provision env (BuildMem db0 cfg0 [])) as [[msg ds0] m1] eqn:Hp.
    cbn [fst snd] in *. subst msg.
    destruct (provision_failed _ _ _ _ _ Hp)
      as [(c & cause & _ & _ & Hds & Ha)|(r & sf & cause & H)].
    2:{ cbn zeta in H. destruct H as (H & _). now apply Hnd in H. }
    cbn [db] in Ha.
    destruct (before_send (task s)).
    + destruct Htr as [-> | ->]; [reflexivity | exact Ha].
    + destruct Htr as (evs & _ & _ & _ & H). rewrite <- Ha. apply H.
      destruct Hds as [-> | ->]; cbn; intuition.
  - intros cause ->.
    unfold reported in Hrep. cbn [Setup mem] in Hrep.
    destruct (provision env (BuildMem db0 cfg0 [])) as [[msg ds0] m1] eqn:Hp.
    cbn [fst snd] in Hrep. subst msg.
    destruct (provision_failed _ _ _ _ _ Hp)
      as [(c & cause' & Hc & Hin & _)|(r & sf & cause' & H)].
    { injection Hc as <- <-. cbn in Hin. intuition discriminate. }
    cbn zeta in H. cbn [db] in H. destruct H as (_ & -> & Hfresh & Hm1).
    split; [exact Hfresh|].
    intros sched s Hrun Hexit Hf Hs.
    pose proof (exited_unwound _ _ _ _ (ex_intro _ sched Hrun) Hexit) as Hex.
    cbn zeta in Hex. unfold reported in Hex. cbn [Setup mem] in Hex.
    rewrite Hp in Hex. cbn [fst snd length unwind run_deferred] in Hex.
    erewrite admin_cleanup_done in Hex; [| assumption | assumption |].
    2:{ cbn. rewrite Hm1. apply lookup_insert_eq. }
    cbn in Hex. injection Hex as <-. cbn.
    eexists. split; [rewrite Hm1; apply insert_insert_eq|].
    split; reflexivity.
Qed.

Lemma failed_Setup_returns_error_admin_key_soft_deleted_witness :
  ∃ adm, database.apps (db (mem (outcome device_creation_fails (failed_run 2)))) =
           <[ "admin-key" := adm ]> ∅
         ∧ AuthorizedApp.KeyType adm = APIKeyTypeAdmin
         ∧ AuthorizedApp.DeletedAt adm = Some 101%Z.
Proof.
  destruct (failed_Setup_returns_error_admin_key_soft_deleted device_creation_fails
              empty_db blank_cfg
              (ErrWrap "error trying to create a new Device API Key"
                       (ErrExternal "insert failed"))
              ltac:(vm_compute; reflexivity)) as (_ & _ & _ & H).
  destruct (H (ErrExternal "insert failed") eq_refl) as [_ H'].
  exact (H' (failed_run 2) (outcome device_creation_fails (failed_run 2))
            ltac:(vm_compute; reflexivity) eq_refl eq_refl eq_refl).
Defined.

(** C7, as the claim has it, fails: [Setup] has returned an error, and the
    admin key it created is in a table that did not have it before. *)
Lemma failed_Setup_leaves_admin_key :
  ∃ s err app,
    run device_creation_fails (failed_run 2) (Setup empty_db blank_cfg) = Some s
    ∧ caller s = Returned None (Some err)
    ∧ task s = Exited
    ∧ database.apps empty_db !! "admin-key" = None
    ∧ database.apps (db (mem s)) !! "admin-key" = Some app
    ∧ database.apps (db (mem s)) ≠ database.apps empty_db.
Proof.
  eexists _, _, _. split; [vm_compute; reflexivity|].
  split; [reflexivity|]. split; [reflexivity|]. split; [reflexivity|].
  split; [vm_compute; reflexivity|].
  intros H. apply (f_equal (λ m, m !! "admin-key")) in H. vm_compute in H. discriminate H.
Qed.

(** ** Calling the returned function twice *)

Lemma done_closed_iff env db0 cfg0 sched : ∀ s,
  run env sched (Setup db0 cfg0) = Some s →
  done_closed s = true ↔ In InvokeTeardown sched ∨ ∃ e, caller s = Returned None e.
Proof.
  induction sched as [|l sched IH] using rev_ind; intros s Hrun.
  - cbn in Hrun. injection Hrun as <-. cbn. split; [discriminate|].
    intros [[]|[e He]]; discriminate.
  - rewrite run_snoc in Hrun.
    destruct (run env sched (Setup db0 cfg0)) as [s1|]; [|discriminate].
    specialize (IH s1 eq_refl).
    assert (Hin : ∀ P, (l ≠ InvokeTeardown) →
              (In InvokeTeardown (sched ++ [l]) ∨ P) ↔ (In InvokeTeardown sched ∨ P)).
    { intros P Hl. rewrite in_app_iff. cbn. intuition congruence. }
    destruct s1 as [c t ds p dc cd m cr]; cbn in *.
    unfold step in Hrun; cbn in Hrun. destruct cr; [discriminate|].
    destruct l; cbn in Hrun.
    + destruct t; try discriminate. destruct (provision env m) as [[msg ds'] m'].
      injection Hrun as <-; cbn. rewrite Hin by discriminate. exact IH.
    + destruct t; try discriminate. destruct c; try discriminate.
      injection Hrun as <-; cbn. rewrite Hin by discriminate.
      rewrite IH. split; intros [H|[e H]]; try discriminate; now left.
    + rewrite Hin by discriminate.
      destruct c as [|[e|]|]; try discriminate.
      * unfold close_done, close_chan in Hrun; cbn in Hrun.
        destruct dc; cbn in Hrun; injection Hrun as <-; cbn.
        -- exact IH.
        -- split; [intros _; right; eauto | reflexivity].
      * injection Hrun as <-; cbn. rewrite IH.
        split; intros [H|[e H]]; try discriminate; now left.
    + destruct c as [| |[[]|] e]; try discriminate.
      * unfold close_done, close_chan in Hrun; cbn in Hrun.
        destruct dc; cbn in Hrun; injection Hrun as <-; cbn.
        all: split; [intros _; left; apply in_or_app; right; now left | reflexivity].
      * injection Hrun as <-; cbn.
        split; [intros _; left; apply in_or_app; right; now left|].
        intros _. apply IH. eauto.
    + injection Hrun as <-; cbn. rewrite Hin by discriminate. exact IH.
    + destruct t; try discriminate. destruct (dc || cd); [|discriminate].
      injection Hrun as <-; cbn. rewrite Hin by discriminate. exact IH.
    + destruct t; try discriminate. destruct ds as [|d ds]; [discriminate|].
      destruct (run_deferred env d m) as [q m'].
      injection Hrun as <-; cbn. rewrite Hin by discriminate. exact IH.
    + destruct t; try discriminate. destruct ds; [|discriminate].
      destruct p; injection Hrun as <-; cbn; rewrite Hin by discriminate; exact IH.
Qed.

(** C8, as the code has it. After a [Setup] that succeeded, the first call
    of the returned function closes [done] and leaves the process alive;
    any later call is a close of a closed channel, a panic that ends the
    process. *)
Theorem teardown_first_call_closes_later_call_panics env db0 cfg0 sched s :
  run env sched (Setup db0 cfg0) = Some s →
  caller s = Returned (Some CloseDone) None →
  crashed s = None →
  ∃ s', step env InvokeTeardown s = Some s'
        ∧ done_closed s' = true
        ∧ (¬ In InvokeTeardown sched → done_closed s = false ∧ crashed s' = None)
        ∧ (In InvokeTeardown sched → crashed s' = Some CloseOfClosedChannel).
Proof.
  intros Hrun Hret Hcr.
  pose proof (done_closed_iff _ _ _ _ _ Hrun) as Hiff.
  unfold step. rewrite Hcr, Hret. unfold close_done, close_chan.
  destruct (done_closed s) eqn:Hdc.
  - eexists; split; [reflexivity|]. cbn. split; [exact Hdc|].
    split; [|reflexivity].
    intros Hn. destruct (proj1 Hiff eq_refl) as [H|[e H]]; [contradiction|].
    rewrite Hret in H. discriminate.
  - eexists; split; [reflexivity|]. cbn. split; [reflexivity|].
    split; [now split|].
    intros Hin. assert (false = true) by (apply Hiff; now left). discriminate.
Qed.

Lemma teardown_first_call_closes_later_call_panics_witness :
  ∃ s', step quiet InvokeTeardown (outcome quiet (setup_schedule ++ [InvokeTeardown]))
        = Some s'
        ∧ crashed s' = Some CloseOfClosedChannel.
Proof.
  destruct (teardown_first_call_closes_later_call_panics quiet empty_db blank_cfg
              (setup_schedule ++ [InvokeTeardown])
              (outcome quiet (setup_schedule ++ [InvokeTeardown]))
              ltac:(vm_compute; reflexivity) eq_refl eq_refl)
    as (s' & Hs & _ & _ & H).
  exists s'. split; [exact Hs|]. apply H. cbn. tauto.
Defined.

(** C8, as the claim has it, fails: the second call of the returned
    function ends the process. *)
Lemma second_teardown_crashes :
  ∃ s,
    run quiet (setup_schedule ++ [InvokeTeardown; InvokeTeardown])
        (Setup empty_db blank_cfg) = Some s
    ∧ caller s = Returned (Some CloseDone) None
    ∧ crashed s = Some CloseOfClosedChannel.
Proof.
  eexists. split; [vm_compute; reflexivity|]. split; reflexivity.
Qed.


(** ** Teardown *)

Lemma reported_ready env db0 cfg0 :
  reported env db0 cfg0 = None →
  ∃ realm suffix ds m1,
    let ak := admin_key_value env in
    let dk := device_key_value env in
    let adm := AuthorizedApp.Build (Realm.ID realm) (adminKeyName +:+ suffix) ak
                 APIKeyTypeAdmin None in
    let dev := AuthorizedApp.Build (Realm.ID realm) (deviceKeyName +:+ suffix) dk
                 APIKeyTypeDevice None in
    provision env (mem (Setup db0 cfg0)) = (None, ds, m1) ∧
    randomString env = inl suffix ∧
    ds = [DeferDeviceCleanup dk; DeferAdminCleanup ak; DeferClose] ∧
    database.apps db0 !! ak = None ∧
    database.apps db0 !! dk = None ∧
    ak ≠ dk ∧
    database.apps (db m1) = <[dk := dev]> (<[ak := adm]> (database.apps db0)) ∧
    database.realms (db m1) !! realmName = Some realm ∧
    config.TestConfig (cfg m1) =
      config.BuildTest ak dk (config.DoRevise (config.TestConfig cfg0)) ∧
    List.filter is_create (trace m1) =
        [EvCreateAuthorizedApp (adminKeyName +:+ suffix) APIKeyTypeAdmin;
         EvCreateAuthorizedApp (deviceKeyName +:+ suffix) APIKeyTypeDevice].
Proof.
  unfold reported.
  destruct (provision env (mem (Setup db0 cfg0))) as [[msg ds] m1] eqn:Hp.
  cbn [fst]. intros ->.
  destruct (provision_ready _ _ _ _ Hp) as (realm & suffix & H).
  exists realm, suffix, ds, m1. cbn zeta in *. cbn [Setup mem db cfg trace] in H.
  cbn [List.filter app] in H. intuition.
Qed.

(** C2, as the code has it. After a [Setup] that succeeded, once the
    goroutine has ended, and provided the lookup and the save of both
    revocations worked: the device key was looked up by its key value,
    stamped with the clock reading and saved, then the same was done for
    the admin key, then the database was closed, in that order and with
    no revocation call before the report on [ready]; both rows of the
    table carry their deletion time. *)
Theorem teardown_soft_deletes_device_key_then_admin_key env db0 cfg0 sched s :
  run env sched (Setup db0 cfg0) = Some s →
  reported env db0 cfg0 = None →
  task s = Exited →
  find_device_fault env = None → save_device_fault env = None →
  find_admin_fault env = None → save_admin_fault env = None →
  let ak := admin_key_value env in
  let dk := device_key_value env in
  let m1 := snd (provision env (mem (Setup db0 cfg0))) in
  ∃ adm dev,
    database.apps (db m1) !! ak = Some adm
    ∧ database.apps (db m1) !! dk = Some dev
    ∧ AuthorizedApp.KeyType adm = APIKeyTypeAdmin
    ∧ AuthorizedApp.KeyType dev = APIKeyTypeDevice
    ∧ AuthorizedApp.DeletedAt adm = None
    ∧ AuthorizedApp.DeletedAt dev = None
    ∧ let adm' := AuthorizedApp.set_DeletedAt (Some (now_admin env)) adm in
      let dev' := AuthorizedApp.set_DeletedAt (Some (now_device env)) dev in
      trace (mem s) =
        trace m1 ++
        [ EvReady None;
          EvFindAuthorizedAppByAPIKey dk; EvSaveAuthorizedApp dev';
          EvLog (LogInfo "successfully cleaned up e2e test device key");
          EvFindAuthorizedAppByAPIKey ak; EvSaveAuthorizedApp adm';
          EvLog (LogInfo "successfully cleaned up e2e test admin key");
          EvClose ]
      ∧ List.filter is_revocation (trace m1) = []
      ∧ database.apps (db (mem s)) =
          <[ak := adm']> (<[dk := dev']> (database.apps (db m1)))
      ∧ database.apps (db (mem s)) !! ak = Some adm'
      ∧ database.apps (db (mem s)) !! dk = Some dev'.
Proof.
  intros Hrun Hrep Hexit Hfd Hsd Hfa Hsa. cbn zeta.
  pose proof (exited_unwound _ _ _ _ (ex_intro _ sched Hrun) Hexit) as Hex.
  cbn zeta in Hex. rewrite Hrep in Hex.
  destruct (provision_trace env (mem (Setup db0 cfg0))) as (ev0 & Hp0 & Hv0 & _).
  change (trace (mem (Setup db0 cfg0))) with (@nil Event) in Hp0. cbn [app] in Hp0.
  destruct (reported_ready _ _ _ Hrep)
    as (realm & suffix & ds & m1 & Hp & _ & -> & Hak & Hdk & Hne & Hm1 & _).
  rewrite Hp in *. cbn [fst snd length unwind run_deferred] in *.
  set (adm := AuthorizedApp.Build _ _ _ APIKeyTypeAdmin _) in *.
  set (dev := AuthorizedApp.Build _ _ _ APIKeyTypeDevice _) in *.
  assert (Hla : database.apps (db m1) !! admin_key_value env = Some adm).
  { rewrite Hm1, lookup_insert_ne by congruence. apply lookup_insert_eq. }
  assert (Hld : database.apps (db m1) !! device_key_value env = Some dev).
  { rewrite Hm1. apply lookup_insert_eq. }
  erewrite device_cleanup_done in Hex; [| assumption | assumption | exact Hld].
  erewrite admin_cleanup_done in Hex; [| assumption | assumption |].
  2:{ cbn. rewrite lookup_insert_ne by congruence. exact Hla. }
  cbn in Hex. injection Hex as <-. cbn.
  exists adm, dev. repeat split; try assumption.
  - now rewrite <- !app_assoc.
  - now rewrite Hp0.
  - apply lookup_insert_eq.
  - rewrite lookup_insert_ne by congruence. apply lookup_insert_eq.
Qed.

Lemma teardown_soft_deletes_device_key_then_admin_key_witness :
  ∃ adm' dev',
    database.apps (db (mem (outcome quiet (whole_run 3)))) !! "admin-key" = Some adm'
    ∧ database.apps (db (mem (outcome quiet (whole_run 3)))) !! "device-key" = Some dev'
    ∧ AuthorizedApp.DeletedAt adm' = Some 101%Z
    ∧ AuthorizedApp.DeletedAt dev' = Some 100%Z.
Proof.
  destruct (teardown_soft_deletes_device_key_then_admin_key quiet empty_db blank_cfg
              (whole_run 3) (outcome quiet (whole_run 3))
              ltac:(vm_compute; reflexivity) ltac:(vm_compute; reflexivity)
              eq_refl eq_refl eq_refl eq_refl eq_refl)
    as (adm & dev & _ & _ & _ & _ & _ & _ & _ & _ & _ & Ha & Hd).
  eexists _, _. split; [exact Ha|]. split; [exact Hd|]. split; reflexivity.
Defined.

(** C2, as the claim has it, fails: [Setup] succeeded, the goroutine has
    ended, the save of the device key failed, and the device key carries
    no deletion time. *)
Lemma teardown_save_failure_leaves_device_key_live :
  ∃ s dev,
    run device_persist_fails (whole_run 3) (Setup empty_db blank_cfg) = Some s
    ∧ caller s = Returned (Some CloseDone) None
    ∧ task s = Exited
    ∧ database.apps (db (mem s)) !! "device-key" = Some dev
    ∧ AuthorizedApp.KeyType dev = APIKeyTypeDevice
    ∧ AuthorizedApp.DeletedAt dev = None.
Proof.
  eexists _, _. split; [vm_compute; reflexivity|].
  split; [reflexivity|]. split; [reflexivity|].
  split; [vm_compute; reflexivity|]. split; reflexivity.
Qed.

Lemma run_deferred_calls env n : ∀ c ds p dc cd m,
  (n ≤ length ds)%nat →
  run env (repeat RunDeferred n) (BuildState c Unwinding ds p dc cd m None) =
  Some (BuildState c Unwinding
          (fst (fst (unwind env n ds p m))) (snd (fst (unwind env n ds p m)))
          dc cd (snd (unwind env n ds p m)) None).
Proof.
  induction n as [|n IH]; intros c ds p dc cd m Hn; [reflexivity|].
  destruct ds as [|d ds]; [cbn in Hn; lia|].
  cbn [repeat run]. unfold step. cbn [crashed task defers mem].
  cbn [unwind].
  destruct (run_deferred env d m) as [q m']. cbn.
  apply IH. cbn in Hn. lia.
Qed.

Lemma device_cleanup_attempt env deviceKey m :
  ∃ evs, trace (snd (device_cleanup env deviceKey m)) =
         trace m ++ EvFindAuthorizedAppByAPIKey deviceKey :: evs.
Proof.
  task_unfold; cbn. repeat case_step.
  all: rewrite <- ?app_assoc; cbn; eexists; reflexivity.
Qed.

Lemma whole_run_prefix env db0 cfg0 ds m1 :
  provision env (mem (Setup db0 cfg0)) = (None, ds, m1) →
  run env ((setup_schedule ++ [InvokeTeardown; SelectWake])) (Setup db0 cfg0) =
  Some (BuildState (Returned (Some CloseDone) None) Unwinding ds None true false
          (snd (emit (EvReady None) m1)) None).
Proof. intros Hp. cbn in *. rewrite Hp. reflexivity. Qed.

(** C3: what the code does when the lookup of the admin key fails during
    cleanup. The device key's revocation has been attempted before; the
    failure is logged; the cleanup then goes on with the nil app the lookup
    returned, and the dereference is a panic that ends the process. No
    schedule lets the goroutine end normally. *)
Theorem admin_lookup_failure_panics env db0 cfg0 e :
  reported env db0 cfg0 = None →
  find_admin_fault env = Some e →
  (∃ s, run env (whole_run 3) (Setup db0 cfg0) = Some s
        ∧ crashed s = Some NilPointerDereference
        ∧ In (EvFindAuthorizedAppByAPIKey (device_key_value env)) (trace (mem s))
        ∧ In (EvLog (LogError "admin API key cleanup failed" e)) (trace (mem s)))
  ∧ ∀ sched s, run env sched (Setup db0 cfg0) = Some s → task s ≠ Exited.
Proof.
  intros Hrep Hfa.
  destruct (reported_ready _ _ _ Hrep) as (realm & suffix & ds & m1 & Hp & _ & -> & _).
  assert (Hu : ∃ md evs,
            unwind env 3
              [DeferDeviceCleanup (device_key_value env);
               DeferAdminCleanup (admin_key_value env); DeferClose] None
              (snd (emit (EvReady None) m1)) =
            ([], Some NilPointerDereference,
             BuildMem (database.Close (db md)) (cfg md)
               (trace m1 ++ EvReady None
                  :: EvFindAuthorizedAppByAPIKey (device_key_value env) :: evs ++
                  [EvFindAuthorizedAppByAPIKey (admin_key_value env);
                   EvLog (LogError "admin API key cleanup failed" e); EvClose]))).
  { cbn [unwind run_deferred].
    pose proof (device_cleanup_no_panic env (device_key_value env)
                  (snd (emit (EvReady None) m1))) as Hq.
    destruct (device_cleanup_attempt env (device_key_value env)
                (snd (emit (EvReady None) m1))) as (evs & He).
    destruct (device_cleanup env _ _) as [q md]. cbn [fst snd] in *. subst q.
    rewrite (admin_cleanup_nil _ _ _ _ Hfa). cbn.
    exists md, evs. rewrite He. cbn. rewrite <- !app_assoc. reflexivity. }
  destruct Hu as (md & evs & Hu).
  split.
  - unfold whole_run.
    rewrite app_assoc, run_app.
    rewrite (whole_run_prefix _ _ _ _ _ Hp).
    unfold unwind_schedule.
    rewrite run_app, run_deferred_calls by (cbn; lia).
    rewrite Hu. cbn.
    eexists. split; [reflexivity|]. split; [reflexivity|]. cbn.
    split; apply in_or_app; right; cbn.
    + tauto.
    + right. right. apply in_or_app. right. cbn. tauto.
  - intros sched s Hrun Hexit.
    pose proof (exited_unwound _ _ _ _ (ex_intro _ sched Hrun) Hexit) as Hex.
    cbn zeta in Hex. rewrite Hrep, Hp in Hex. cbn [fst snd length] in Hex.
    rewrite Hu in Hex. discriminate Hex.
Qed.

Lemma admin_lookup_failure_panics_witness :
  ∃ s, run admin_refetch_fails (whole_run 3) (Setup empty_db blank_cfg) = Some s
       ∧ crashed s = Some NilPointerDereference.
Proof.
  destruct (admin_lookup_failure_panics admin_refetch_fails empty_db blank_cfg
              (ErrExternal "connection lost")
              ltac:(vm_compute; reflexivity) eq_refl)
    as [(s & Hs & Hc & _) _].
  exists s. split; assumption.
Defined.


(** ** The two keys and their names *)

Lemma provision_without_entropy env m e :
  rand_fault env = Some e →
  List.filter is_create (trace (snd (provision env m))) = List.filter is_create (trace m)
  ∧ database.apps (db (snd (provision env m))) = database.apps (db m)
  ∧ ∀ d, In d (snd (fst (provision env m))) → d = DeferClose.
Proof.
  intros Hr. rewrite (surjective_pairing (provision env m)).
  rewrite (surjective_pairing (fst (provision env m))).
  unfold provision. rewrite (randomString_fails _ _ Hr).
  task_unfold; cbn.
  repeat case_step.
  all: split; [filters; reflexivity|]; split; [reflexivity|].
  all: intros d Hd; cbn in Hd; intuition.
Qed.

(** C5. A [Setup] that succeeds has read 512 bytes from the entropy source
    and made, in the test realm, two authorized apps under two new key
    values: an admin key named ["e2e-admin-key."] and a device key named
    ["e2e-device-key."], each followed by the 64 lowercase hexadecimal
    digits of the SHA-256 checksum of those bytes; the table has these two
    rows more than before, and no third creation is ever on record. When
    the entropy source fails, [Setup] returns an error and no creation is
    on record. *)
Theorem Setup_creates_admin_key_and_device_key env db0 cfg0 :
  let ak := admin_key_value env in
  let dk := device_key_value env in
  let m1 := snd (provision env (mem (Setup db0 cfg0))) in
  (reported env db0 cfg0 = None →
   ∃ realm buf suffix,
     let adm := AuthorizedApp.Build (Realm.ID realm) (adminKeyName +:+ suffix) ak
                  APIKeyTypeAdmin None in
     let dev := AuthorizedApp.Build (Realm.ID realm) (deviceKeyName +:+ suffix) dk
                  APIKeyTypeDevice None in
     rand_Read env 512 = inl buf ∧ length buf = 512%nat
     ∧ suffix = Fmt.Sprintf_x (Sha256.Sum256 buf)
     ∧ String.length suffix = 64%nat
     ∧ forallb Fmt.is_lower_hex (list_ascii_of_string suffix) = true
     ∧ database.realms (db m1) !! realmName = Some realm
     ∧ database.apps db0 !! ak = None ∧ database.apps db0 !! dk = None ∧ ak ≠ dk
     ∧ database.apps (db m1) = <[dk := dev]> (<[ak := adm]> (database.apps db0))
     ∧ size (database.apps (db m1)) = S (S (size (database.apps db0)))
     ∧ ∀ sched s, run env sched (Setup db0 cfg0) = Some s →
         caller s ≠ AtRecv →
         List.filter is_create (trace (mem s)) =
           [EvCreateAuthorizedApp (adminKeyName +:+ suffix) APIKeyTypeAdmin;
            EvCreateAuthorizedApp (deviceKeyName +:+ suffix) APIKeyTypeDevice])
  ∧ (∀ e, rand_fault env = Some e →
       reported env db0 cfg0 ≠ None
       ∧ ∀ sched s, run env sched (Setup db0 cfg0) = Some s →
           List.filter is_create (trace (mem s)) = []
           ∧ database.apps (db (mem s)) = database.apps db0
           ∧ ∀ td err, caller s = Returned td err → td = None ∧ err ≠ None).
Proof.
  cbn zeta. split.
  - intros Hrep.
    destruct (reported_ready _ _ _ Hrep)
      as (realm & suffix & ds & m1 & Hp & Hrs & -> & Hak & Hdk & Hne & Hm1 & Hrl & _ & Hcr).
    destruct (randomString_shape _ _ Hrs) as (buf & Hb & Hlen & Hsuf & Hl64 & Hhex).
    rewrite Hp. cbn [snd].
    exists realm, buf, suffix. cbn zeta.
    repeat (split; [assumption|]).
    split.
    { rewrite Hm1, !map_size_insert_None; [reflexivity | assumption |].
      now rewrite lookup_insert_ne by congruence. }
    intros sched s Hrun Hcaller.
    assert (Hreach : Reachable env db0 cfg0 s) by (exists sched; exact Hrun).
    destruct (reachable_ok _ _ _ _ Hreach) as [_ Hc].
    pose proof (reachable_trace _ _ _ _ Hreach) as Htr. cbn zeta in Htr.
    rewrite Hp in Htr. cbn [snd] in Htr.
    assert (Hb' : before_send (task s) = false).
    { unfold caller_ok in Hc. destruct (caller s); [congruence | |]; apply Hc. }
    rewrite Hb' in Htr. destruct Htr as (evs & -> & _ & He & _).
    rewrite List.filter_app, Hcr. cbn. rewrite He. reflexivity.
  - intros e Hr.
    split.
    { apply provisioning_fault_reported. unfold provisioning_fault.
      do 4 right. left. congruence. }
    intros sched s Hrun.
    assert (Hreach : Reachable env db0 cfg0 s) by (exists sched; exact Hrun).
    destruct (reachable_ok _ _ _ _ Hreach) as [_ Hc].
    pose proof (reachable_trace _ _ _ _ Hreach) as Htr. cbn zeta in Htr.
    destruct (provision_without_entropy env (mem (Setup db0 cfg0)) e Hr)
      as (Hcr & Hap & Hds).
    change (trace (mem (Setup db0 cfg0))) with (@nil Event) in Hcr.
    change (db (mem (Setup db0 cfg0))) with db0 in Hap.
    cbn [List.filter] in Hcr.
    split; [|split].
    + destruct (before_send (task s)).
      * destruct Htr as [-> | ->]; [reflexivity | exact Hcr].
      * destruct Htr as (evs & -> & _ & He & _).
        rewrite List.filter_app, Hcr. cbn. exact He.
    + destruct (before_send (task s)).
      * destruct Htr as [-> | ->]; [reflexivity | exact Hap].
      * destruct Htr as (evs & _ & _ & _ & H). rewrite <- Hap. now apply H.
    + intros td err Hret. unfold caller_ok in Hc. rewrite Hret in Hc.
      destruct Hc as (-> & _ & ->).
      assert (Hne : reported env db0 cfg0 ≠ None).
      { apply provisioning_fault_reported. unfold provisioning_fault.
        do 4 right. left. congruence. }
      destruct (reported env db0 cfg0); [split; [reflexivity | discriminate] | congruence].
Qed.

Lemma Setup_creates_admin_key_and_device_key_witness :
  (∃ suffix,
     String.length suffix = 64%nat
     ∧ List.filter is_create (trace (mem (outcome quiet setup_schedule))) =
         [EvCreateAuthorizedApp (adminKeyName +:+ suffix) APIKeyTypeAdmin;
          EvCreateAuthorizedApp (deviceKeyName +:+ suffix) APIKeyTypeDevice])
  ∧ reported entropy_fails empty_db blank_cfg ≠ None.
Proof.
  split.
  - destruct (Setup_creates_admin_key_and_device_key quiet empty_db blank_cfg)
      as [H _].
    destruct (H ltac:(vm_compute; reflexivity))
      as (realm & buf & suffix & _ & _ & _ & Hl & _ & _ & _ & _ & _ & _ & _ & Hc).
    exists suffix. split; [exact Hl|].
    apply (Hc setup_schedule); [vm_compute; reflexivity | discriminate].
  - destruct (Setup_creates_admin_key_and_device_key entropy_fails empty_db blank_cfg)
      as [_ H].
    exact (proj1 (H (ErrExternal "entropy exhausted") eq_refl)).
Defined.

Lemma substring_all s : String.substring 0 (String.length s) s = s.
Proof. induction s as [|a s IH]; cbn; [reflexivity | now rewrite IH]. Qed.

Lemma TrimPrefix_append p s : TrimPrefix (p +:+ s) p = s.
Proof.
  unfold TrimPrefix.
  assert (Hp : String.prefix p (p +:+ s) = true).
  { induction p as [|a p IH].
    - change ("" +:+ s) with s. now destruct s.
    - change (String a p +:+ s) with (String a (p +:+ s)). cbn.
      destruct (ascii_dec a a); [exact IH | congruence]. }
  rewrite Hp. clear Hp.
  induction p as [|a p IH].
  - change ("" +:+ s) with s. cbn. rewrite Nat.sub_0_r. apply substring_all.
  - change (String a p +:+ s) with (String a (p +:+ s)). cbn. exact IH.
Qed.

(** C10. After a [Setup] that succeeded, the names of the admin key and of
    the device key are the two prefixes followed by one and the same
    suffix, the one [randomString] returned: with the prefixes removed the
    two names are equal. *)
Theorem admin_and_device_names_share_the_suffix env db0 cfg0 :
  reported env db0 cfg0 = None →
  let m1 := snd (provision env (mem (Setup db0 cfg0))) in
  ∃ adm dev suffix,
    database.apps (db m1) !! admin_key_value env = Some adm
    ∧ database.apps (db m1) !! device_key_value env = Some dev
    ∧ AuthorizedApp.KeyType adm = APIKeyTypeAdmin
    ∧ AuthorizedApp.KeyType dev = APIKeyTypeDevice
    ∧ randomString env = inl suffix
    ∧ AuthorizedApp.Name adm = adminKeyName +:+ suffix
    ∧ AuthorizedApp.Name dev = deviceKeyName +:+ suffix
    ∧ TrimPrefix (AuthorizedApp.Name adm) adminKeyName = suffix
    ∧ TrimPrefix (AuthorizedApp.Name adm) adminKeyName =
      TrimPrefix (AuthorizedApp.Name dev) deviceKeyName.
Proof.
  intros Hrep. cbn zeta.
  destruct (reported_ready _ _ _ Hrep)
    as (realm & suffix & ds & m1 & Hp & Hrs & _ & Hak & Hdk & Hne & Hm1 & _).
  rewrite Hp. cbn [snd]. rewrite Hm1.
  eexists _, _, suffix.
  split; [rewrite lookup_insert_ne by congruence; apply lookup_insert_eq|].
  split; [apply lookup_insert_eq|].
  cbn [AuthorizedApp.KeyType AuthorizedApp.Name].
  rewrite !TrimPrefix_append. repeat split; try reflexivity. exact Hrs.
Qed.

Lemma admin_and_device_names_share_the_suffix_witness :
  ∃ adm dev,
    database.apps (db (mem (outcome quiet setup_schedule))) !! "admin-key" = Some adm
    ∧ database.apps (db (mem (outcome quiet setup_schedule))) !! "device-key" = Some dev
    ∧ TrimPrefix (AuthorizedApp.Name adm) "e2e-admin-key." =
      TrimPrefix (AuthorizedApp.Name dev) "e2e-device-key.".
Proof.
  destruct (admin_and_device_names_share_the_suffix quiet empty_db blank_cfg
              ltac:(vm_compute; reflexivity))
    as (adm & dev & suffix & Ha & Hd & _ & _ & _ & _ & _ & _ & Ht).
  exists adm, dev. split; [|split; [|exact Ht]].
  - etransitivity; [|exact Ha]. vm_compute. reflexivity.
  - etransitivity; [|exact Hd]. vm_compute. reflexivity.
Defined.


(** ** The configuration of a live setup *)

Lemma unwind_cfg env j : ∀ ds p m, cfg (snd (unwind env j ds p m)) = cfg m.
Proof.
  induction j as [|j IH]; intros ds p m; [reflexivity|].
  destruct ds as [|d ds]; [reflexivity|]. cbn [unwind].
  assert (Hd : cfg (snd (run_deferred env d m)) = cfg m).
  { destruct d; task_unfold; cbn; repeat case_step; reflexivity. }
  destruct (run_deferred env d m) as [q m']. cbn [snd] in Hd.
  now rewrite IH.
Qed.

Lemma live_setup_config env db0 cfg0 sched s :
  run env sched (Setup db0 cfg0) = Some s →
  caller s = Returned (Some CloseDone) None →
  reported env db0 cfg0 = None
  ∧ config.TestConfig (cfg (mem s)) =
      config.BuildTest (admin_key_value env) (device_key_value env)
                       (config.DoRevise (config.TestConfig cfg0)).
Proof.
  intros Hrun Hret.
  destruct (reachable_ok env db0 cfg0 s (ex_intro _ sched Hrun)) as [Ht Hc].
  unfold caller_ok in Hc. rewrite Hret in Hc. destruct Hc as (Hrep & Hb & _).
  symmetry in Hrep. split; [exact Hrep|].
  destruct (reported_ready _ _ _ Hrep)
    as (realm & suffix & ds & m1 & Hp & _ & _ & _ & _ & _ & _ & _ & Hcfg & _).
  unfold task_ok in Ht. rewrite Hp in Ht. cbn [fst snd] in Ht.
  assert (Hm : cfg (mem s) = cfg m1).
  { destruct (task s); try discriminate Hb.
    - now destruct Ht as (_ & _ & _ & ->).
    - destruct Ht as [j Hj].
      pose proof (unwind_cfg env j ds None (snd (emit (EvReady None) m1))) as Hu.
      rewrite <- Hj in Hu. exact Hu.
    - destruct Ht as ([j Hj] & _).
      pose proof (unwind_cfg env j ds None (snd (emit (EvReady None) m1))) as Hu.
      rewrite <- Hj in Hu. exact Hu. }
  now rewrite Hm.
Qed.


(** For comparison with C3: when the lookup of the admin key works, no
    failure of the other three calls of the two revocations does more than
    leave a line in the log. Both revocations are attempted and the
    goroutine ends normally. *)
Lemma other_revocation_failures_are_only_logged env db0 cfg0 :
  reported env db0 cfg0 = None →
  find_admin_fault env = None →
  ∃ s, run env (whole_run 3) (Setup db0 cfg0) = Some s
       ∧ task s = Exited
       ∧ crashed s = None
       ∧ In (EvFindAuthorizedAppByAPIKey (device_key_value env)) (trace (mem s))
       ∧ In (EvFindAuthorizedAppByAPIKey (admin_key_value env)) (trace (mem s)).
Proof.
  intros Hrep Hfa.
  destruct (reported_ready _ _ _ Hrep)
    as (realm & suffix & ds & m1 & Hp & _ & -> & Hak & Hdk & Hne & Hm1 & _).
  unfold whole_run. rewrite app_assoc, run_app, (whole_run_prefix _ _ _ _ _ Hp).
  unfold unwind_schedule. rewrite run_app, run_deferred_calls by (cbn; lia).
  assert (Hla : database.apps (db m1) !! admin_key_value env
                = Some (AuthorizedApp.Build (Realm.ID realm) (adminKeyName +:+ suffix)
                          (admin_key_value env) APIKeyTypeAdmin None)).
  { rewrite Hm1, lookup_insert_ne by congruence. apply lookup_insert_eq. }
  assert (Hld : database.apps (db m1) !! device_key_value env
                = Some (AuthorizedApp.Build (Realm.ID realm) (deviceKeyName +:+ suffix)
                          (device_key_value env) APIKeyTypeDevice None)).
  { rewrite Hm1. apply lookup_insert_eq. }
  clear Hm1 Hp.
  cbn [unwind]. task_unfold. cbn.
  rewrite Hfa.
  destruct (find_device_fault env); cbn; rewrite ?Hla, ?Hld; cbn.
  2: destruct (save_device_fault env); cbn;
       rewrite ?Hla, ?lookup_insert_ne, ?Hla by congruence; cbn.
  all: destruct (save_admin_fault env); cbn.
  all: eexists; split; [reflexivity|]; cbn.
  all: split; [reflexivity|]; split; [reflexivity|].
  all: rewrite !in_app_iff; cbn; tauto.
Qed.

End E2E.

Section Runner.

Import runner.

Variable RunEndToEnd : config.E2ETestConfig → option error.

(** ** The handlers and their copies of the configuration *)

Lemma realMain_shape conf :
  ∃ cd cr,
    cd ≠ cr ∧ cd ≠ 0%nat ∧ cr ≠ 0%nat
    ∧ realMain conf =
        BuildServer
          (<[cr := config.set_DoRevise true conf]>
             (<[cd := config.set_DoRevise false conf]> {[ 0%nat := conf ]}))
          0%nat
          [("/default", BuildHandler cd "could not run default end to end");
           ("/revise", BuildHandler cr "could not run revise end to end")]
          [] [].
Proof.
  unfold realMain, defaultHandler, reviseHandler. cbn zeta.
  set (h0 := ({[ 0%nat := conf ]} : Heap)).
  set (cd := fresh (dom h0)).
  rewrite alter_insert_eq.
  set (h1 := <[cd := config.set_DoRevise false conf]> h0).
  set (cr := fresh (dom h1)).
  rewrite alter_insert_eq.
  assert (Hcd : cd ∉ dom h0) by apply is_fresh.
  assert (Hcr : cr ∉ dom h1) by apply is_fresh.
  unfold h1, h0 in *. rewrite ?dom_insert_L, ?dom_singleton_L in *.
  exists cd, cr. repeat split; try reflexivity; set_solver.
Qed.

Lemma lookup_route_flag cd cr path :
  lookup_route path
    [("/default", BuildHandler cd "could not run default end to end");
     ("/revise", BuildHandler cr "could not run revise end to end")] =
  match route_flag path with
  | Some false => Some (BuildHandler cd "could not run default end to end")
  | Some true => Some (BuildHandler cr "could not run revise end to end")
  | None => None
  end.
Proof.
  unfold lookup_route, route_flag. cbn [List.find fst].
  destruct (String.eqb "/default" path); [reflexivity|].
  destruct (String.eqb "/revise" path); reflexivity.
Qed.

Lemma requests_frame paths : ∀ srv,
  let srv' := snd (requests RunEndToEnd paths srv) in
  heap srv' = heap srv ∧ routes srv' = routes srv ∧ e2eConfig srv' = e2eConfig srv
  ∧ runs srv' =
      runs srv ++
      flat_map (λ p, match lookup_route p (routes srv) with
                     | Some hd => match heap srv !! c hd with
                                  | Some conf => [(c hd, conf)]
                                  | None => []
                                  end
                     | None => []
                     end) paths.
Proof.
  induction paths as [|p paths IH]; intros srv; cbn zeta.
  - cbn. rewrite app_nil_r. repeat split; reflexivity.
  - cbn [requests flat_map].
    destruct (request RunEndToEnd p srv) as [r srv1] eqn:Hreq.
    specialize (IH srv1). cbn zeta in IH.
    destruct (requests RunEndToEnd paths srv1) as [rs srv2]. cbn [snd] in *.
    destruct IH as (Hh & Hr & He & Hruns).
    assert (H1 : heap srv1 = heap srv ∧ routes srv1 = routes srv
                 ∧ e2eConfig srv1 = e2eConfig srv
                 ∧ runs srv1 = runs srv ++
                     match lookup_route p (routes srv) with
                     | Some hd => match heap srv !! c hd with
                                  | Some conf => [(c hd, conf)]
                                  | None => []
                                  end
                     | None => []
                     end).
    { unfold request, serve in Hreq.
      destruct (lookup_route p (routes srv)) as [hd|].
      - destruct (heap srv !! c hd) as [conf|].
        + destruct (RunEndToEnd conf); injection Hreq as _ <-; cbn; repeat split; reflexivity.
        + injection Hreq as _ <-. rewrite app_nil_r. repeat split; reflexivity.
      - injection Hreq as _ <-. rewrite app_nil_r. repeat split; reflexivity. }
    destruct H1 as (Hh1 & Hr1 & He1 & Hruns1).
    rewrite Hh, Hr, He, Hruns, Hh1, Hr1, He1, Hruns1, <- app_assoc.
    repeat split; reflexivity.
Qed.

Lemma realMain_requests conf paths :
  ∃ cd cr,
    cd ≠ cr ∧ cd ≠ 0%nat ∧ cr ≠ 0%nat
    ∧ heap (realMain conf) =
        <[cr := config.set_DoRevise true conf]>
          (<[cd := config.set_DoRevise false conf]> {[ 0%nat := conf ]})
    ∧ e2eConfig (realMain conf) = 0%nat
    ∧ routes (realMain conf) =
        [("/default", BuildHandler cd "could not run default end to end");
         ("/revise", BuildHandler cr "could not run revise end to end")]
    ∧ heap (snd (requests RunEndToEnd paths (realMain conf))) = heap (realMain conf)
    ∧ routes (snd (requests RunEndToEnd paths (realMain conf))) = routes (realMain conf)
    ∧ runs (snd (requests RunEndToEnd paths (realMain conf))) =
        expected_runs cd cr conf paths.
Proof.
  destruct (realMain_shape conf) as (cd & cr & Hne & Hd0 & Hr0 & Hm).
  destruct (requests_frame paths (realMain conf)) as (Hh & Hr & _ & Hruns).
  exists cd, cr. rewrite Hh, Hr, Hruns, Hm. cbn [heap routes runs e2eConfig app].
  repeat split; try assumption.
  unfold expected_runs. apply flat_map_ext. intros p.
  rewrite lookup_route_flag. destruct (route_flag p) as [[|]|]; cbn [c]; [| |reflexivity].
  - now rewrite lookup_insert_eq.
  - rewrite lookup_insert_ne by congruence. now rewrite lookup_insert_eq.
Qed.


(** C6. With the handlers made from the configuration of a live setup, any
    sequence of requests, in any order, leads to exactly these calls of
    the workflow: one for each request to [/default], on a configuration
    with the two live keys and the revise flag false, and one for each
    request to [/revise], with the flag true. The variables the two
    handlers captured hold what was written when the routes were
    registered, before and after every request. *)
Theorem each_route_runs_the_workflow_with_its_own_flag env db0 cfg0 sched s paths :
  e2e.run env sched (e2e.Setup db0 cfg0) = Some s →
  e2e.caller s = e2e.Returned (Some e2e.CloseDone) None →
  let live := config.BuildTest (e2e.admin_key_value env) (e2e.device_key_value env)
                (config.DoRevise (config.TestConfig cfg0)) in
  let srv0 := realMain (config.TestConfig (e2e.cfg (e2e.mem s))) in
  let srv := snd (requests RunEndToEnd paths srv0) in
  ∃ cd cr,
    routes srv0 =
      [("/default", BuildHandler cd "could not run default end to end");
       ("/revise", BuildHandler cr "could not run revise end to end")]
    ∧ heap srv0 !! cd = Some (config.set_DoRevise false live)
    ∧ heap srv0 !! cr = Some (config.set_DoRevise true live)
    ∧ heap srv = heap srv0
    ∧ routes srv = routes srv0
    ∧ runs srv = expected_runs cd cr live paths
    ∧ Forall (λ r, (fst r = cd ∧ config.DoRevise (snd r) = false)
                   ∨ (fst r = cr ∧ config.DoRevise (snd r) = true)) (runs srv).
Proof.
  intros Hrun Hret. cbn zeta.
  destruct (live_setup_config _ _ _ _ _ Hrun Hret) as [_ Hcfg]. rewrite Hcfg.
  destruct (realMain_requests
              (config.BuildTest (e2e.admin_key_value env) (e2e.device_key_value env)
                 (config.DoRevise (config.TestConfig cfg0))) paths)
    as (cd & cr & Hne & Hd0 & Hr0 & Hheap & _ & Hroutes & Hh & Hr & Hruns).
  exists cd, cr. rewrite Hh, Hr, Hruns, Hheap, Hroutes.
  split; [reflexivity|].
  split; [rewrite lookup_insert_ne by congruence; apply lookup_insert_eq|].
  split; [apply lookup_insert_eq|].
  repeat (split; [reflexivity|]).
  unfold expected_runs. apply Forall_flat_map, Forall_forall. intros p _.
  destruct (route_flag p) as [[|]|];
    [constructor; [right | constructor] | constructor; [left | constructor]
    | constructor]; cbn; tauto.
Qed.

End Runner.

Lemma each_route_runs_the_workflow_with_its_own_flag_witness :
  ∃ cd cr,
    runner.runs
      (snd (runner.requests runner.always_ok ["/default"; "/revise"; "/default"]
              (runner.realMain
                 (config.TestConfig
                    (e2e.cfg (e2e.mem (e2e.outcome e2e.quiet e2e.setup_schedule))))))) =
    [ (cd, config.BuildTest "admin-key" "device-key" false);
      (cr, config.BuildTest "admin-key" "device-key" true);
      (cd, config.BuildTest "admin-key" "device-key" false) ].
Proof.
  destruct (each_route_runs_the_workflow_with_its_own_flag runner.always_ok
              e2e.quiet e2e.empty_db e2e.blank_cfg e2e.setup_schedule
              (e2e.outcome e2e.quiet e2e.setup_schedule)
              ["/default"; "/revise"; "/default"]
              ltac:(vm_compute; reflexivity) eq_refl)
    as (cd & cr & _ & _ & _ & _ & _ & H & _).
  exists cd, cr. exact H.
Defined.

Section Copies.

Import runner.

Variable RunEndToEnd : config.E2ETestConfig → option error.

(** C9, as the code has it. The shared configuration is copied once for
    each route, when the route is registered, not once for each request.
    However many requests are served, there are three variables: the
    shared configuration, which keeps its value, flag included, and one
    copy per route, which keeps the flag written at registration. Every
    request to a route runs the workflow on that route's one copy; no
    request writes to any of the three. *)
Theorem configuration_is_copied_once_per_route conf paths :
  let srv0 := realMain conf in
  let srv := snd (requests RunEndToEnd paths srv0) in
  ∃ cd cr,
    cd ≠ cr ∧ cd ≠ e2eConfig srv0 ∧ cr ≠ e2eConfig srv0
    ∧ dom (heap srv) = {[ e2eConfig srv0; cd; cr ]}
    ∧ heap srv = heap srv0
    ∧ heap srv !! e2eConfig srv0 = Some conf
    ∧ heap srv !! cd = Some (config.set_DoRevise false conf)
    ∧ heap srv !! cr = Some (config.set_DoRevise true conf)
    ∧ Forall (λ r, fst r = cd ∨ fst r = cr) (runs srv)
    ∧ runs srv = expected_runs cd cr conf paths.
Proof.
  cbn zeta.
  destruct (realMain_requests RunEndToEnd conf paths)
    as (cd & cr & Hne & Hd0 & Hr0 & Hheap & He & Hroutes & Hh & Hr & Hruns).
  exists cd, cr. rewrite Hh, Hruns, Hheap, He.
  repeat (split; [assumption|]).
  split.
  { rewrite !dom_insert_L, dom_singleton_L. apply set_eq. intros x.
    rewrite !elem_of_union, !elem_of_singleton. tauto. }
  split; [reflexivity|].
  split; [now rewrite !lookup_insert_ne, lookup_singleton_eq by congruence|].
  split; [rewrite lookup_insert_ne by congruence; apply lookup_insert_eq|].
  split; [apply lookup_insert_eq|].
  split; [|reflexivity].
  unfold expected_runs. apply Forall_flat_map, Forall_forall. intros p _.
  destruct (route_flag p) as [[|]|];
    [constructor; [right | constructor] | constructor; [left | constructor]
    | constructor]; cbn; tauto.
Qed.

End Copies.

(** C9, as the claim has it, fails: two requests to [/default] run the
    workflow on one and the same variable, and serving them has made no
    copy. *)
Lemma two_requests_share_one_copy :
  let conf := config.BuildTest "admin-key" "device-key" false in
  let srv0 := runner.realMain conf in
  let srv := snd (runner.requests runner.always_ok ["/default"; "/default"] srv0) in
  ∃ cd snapshot,
    runner.runs srv = [(cd, snapshot); (cd, snapshot)]
    ∧ size (runner.heap srv0) = 3%nat
    ∧ size (runner.heap srv) = 3%nat.
Proof.
  cbn zeta. eexists _, _. split; [vm_compute; reflexivity|].
  split; vm_compute; reflexivity.
Qed.
